(** * Stonekeep save game editor: a shallow embedding of [stonekeep.py]

    The editor patches single bytes of a save file at fixed offsets.  The
    embedding follows the Python source function by function:

    - Python [int] is [Z]; Python [str] is [string], read as a sequence of
      code points below 256; a file's content is a [list byte].
    - The world the script acts on (file system, standard input, and the
      ordered log of everything it prints, opens and runs) is threaded
      through a small state-and-exception monad [py].
    - Python exceptions are the constructors of [exn]; [try]/[except] is
      [try_except].
    - The menus recurse instead of looping; their model recurses on the
      call depth the interpreter still allows.

    Outside the model: a write to a file that was opened always succeeds
    (no full disk), and how [pathlib] renders a path object is left open, as
    a parameter of the menus. *)

From Stdlib Require Import ZArith Strings.Byte Strings.Ascii Strings.String.
From stdpp Require Import gmap strings list pretty.

Local Open Scope Z_scope.

(** ** Python strings *)

Module Str.

Definition LF : string := String "010"%char EmptyString.
Definition dquote : string := String "034"%char EmptyString.
Definition squote : string := String "039"%char EmptyString.

(** [str(n)] for an integer: decimal digits with a leading minus. *)
Definition of_int (n : Z) : string := pretty n.

(** Code points below 256 for which [str.isspace] holds. *)
Definition isspace (c : ascii) : bool :=
  let n := N_of_ascii c in
  ((9 <=? n) && (n <=? 13) || (28 <=? n) && (n <=? 32)
   || (n =? 133) || (n =? 160))%N.

Fixpoint mem (c : ascii) (chars : string) : bool :=
  match chars with
  | EmptyString => false
  | String d chars' => if Ascii.eqb c d then true else mem c chars'
  end.

Fixpoint all (p : ascii -> bool) (s : string) : bool :=
  match s with
  | EmptyString => true
  | String c s' => p c && all p s'
  end.

Fixpoint lstrip (p : ascii -> bool) (s : string) : string :=
  match s with
  | EmptyString => EmptyString
  | String c s' => if p c then lstrip p s' else s
  end.

Fixpoint rstrip (p : ascii -> bool) (s : string) : string :=
  match s with
  | EmptyString => EmptyString
  | String c s' =>
      match rstrip p s' with
      | EmptyString => if p c then EmptyString else String c EmptyString
      | r => String c r
      end
  end.

(** [s.strip()] and [s.strip(chars)]. *)
Definition strip (chars : option string) (s : string) : string :=
  let p := match chars with
           | None => isspace
           | Some cs => fun c => mem c cs
           end in
  rstrip p (lstrip p s).

(** [s.startswith(pre)]. *)
Definition startswith (s pre : string) : bool := String.prefix pre s.

(** The slice [s[n:]]. *)
Fixpoint slice_from (n : nat) (s : string) : string :=
  match n, s with
  | O, _ => s
  | S _, EmptyString => EmptyString
  | S n', String _ s' => slice_from n' s'
  end.

(** [str.lower] on one code point below 256: A-Z and the Latin-1
    capitals other than the multiplication sign move up by 32. *)
Definition lower_char (c : ascii) : ascii :=
  let n := N_of_ascii c in
  if ((65 <=? n) && (n <=? 90)
      || (192 <=? n) && (n <=? 222) && negb (n =? 215))%N
  then ascii_of_N (n + 32) else c.

Fixpoint lower (s : string) : string :=
  match s with
  | EmptyString => EmptyString
  | String c s' => String (lower_char c) (lower s')
  end.

End Str.

(** ** Exceptions, the world, and the [py] monad *)

(** The enumerations of the script. *)
Inductive character_name := Drake | Farley.
Inductive attributes := health | agility.

#[global] Instance character_name_eq_dec : EqDecision character_name.
Proof. solve_decision. Defined.
#[global] Instance attributes_eq_dec : EqDecision attributes.
Proof. solve_decision. Defined.

(** A key used to subscript one of the module's dictionaries; [None] is the
    Python value a [game_character] field holds before it is assigned. *)
Inductive dict_key :=
| KeyName (k : option character_name)
| KeyAttr (k : option attributes).

Inductive exn :=
| FileNotFoundError (filename : string)
| OSError (msg : string)          (* any [OSError] other than the above *)
| ValueError (msg : string)
| KeyError (key : dict_key)
| EOFError
| RecursionError
| SystemExit (code : Z).

Inductive result (A : Type) :=
| Ok (a : A)
| Raise (e : exn).
Arguments Ok {A} a.
Arguments Raise {A} e.

(** What [open] finds at a path: a regular file the process may open for
    reading and writing, or something it refuses with an [OSError] of the
    given text, other than "no such file or directory" (a directory, a file
    without permission, a path that runs through a file that is no
    directory, a name that is too long).  A path the file system says
    nothing about is one the system reports as not existing. *)
Inductive node :=
| RegularFile (content : list byte)
| Inaccessible (err : string).

(** The observable actions of the script, in the order they happen. *)
Inductive event :=
| EvPrint (text : string)         (* [print(text)] *)
| EvInput (prompt : string)       (* [input(prompt)] *)
| EvOpen (path : string)          (* [open(path, "rb+")] *)
| EvSystem (cmd : string).        (* [os.system(cmd)] *)

Record world := World {
  fs : gmap string node;
  os_name : string;
  stdin : list string;
  trace : list event
}.

Definition py (A : Type) : Type := world -> result A * world.

Definition ret {A} (a : A) : py A := fun w => (Ok a, w).
Definition raise {A} (e : exn) : py A := fun w => (Raise e, w).
Definition bind {A B} (m : py A) (k : A -> py B) : py B :=
  fun w => match m w with
           | (Ok a, w') => k a w'
           | (Raise e, w') => (Raise e, w')
           end.

Declare Scope py_scope.
Delimit Scope py_scope with py.
Notation "x <- m ;;; k" := (bind m (fun x => k))
  (at level 100, m at next level, right associativity) : py_scope.
Notation "m ;;; k" := (bind m (fun _ => k))
  (at level 100, right associativity) : py_scope.
Local Open Scope py_scope.

(** [try: body except ...: handler]: [handlers e] is the matching handler,
    if one of the [except] clauses catches [e]. *)
Definition try_except {A} (body : py A) (handlers : exn -> option (py A)) : py A :=
  fun w => match body w with
           | (Ok a, w') => (Ok a, w')
           | (Raise e, w') =>
               match handlers e with
               | Some h => h w'
               | None => (Raise e, w')
               end
           end.

Definition log (e : event) : py unit :=
  fun w => (Ok tt, World (fs w) (os_name w) (stdin w) (trace w ++ [e])).

Definition print (text : string) : py unit := log (EvPrint text).

(** [input(prompt)]: the next line of standard input, [EOFError] at its end. *)
Definition input (prompt : string) : py string :=
  fun w => match stdin w with
           | [] => (Raise EOFError,
                    World (fs w) (os_name w) [] (trace w ++ [EvInput prompt]))
           | line :: rest =>
               (Ok line,
                World (fs w) (os_name w) rest (trace w ++ [EvInput prompt]))
           end.

(** ** Binary files *)

(** Whether a path has a NUL character in it. *)
Definition embedded_null (path : string) : bool := Str.mem "000"%char path.

Module File.

(** A file object opened by [open(path, "rb+")]: its path and position. *)
Record t := Obj { name : string; pos : Z }.

Inductive whence := SEEK_SET | SEEK_END.

Definition size_of (w : world) (path : string) : Z :=
  match fs w !! path with
  | Some (RegularFile content) => Z.of_nat (length content)
  | _ => 0
  end.

(** Opening never truncates and never creates.  A path with a NUL
    character in it is refused with a [ValueError] before the system is
    asked; no file has such a name, so here the test comes where nothing is
    found. *)
Definition open_rb_plus (path : string) : py t :=
  log (EvOpen path) ;;;
  fun w => match fs w !! path with
           | None =>
               if embedded_null path
               then (Raise (ValueError "embedded null byte"), w)
               else (Raise (FileNotFoundError path), w)
           | Some (Inaccessible err) => (Raise (OSError err), w)
           | Some (RegularFile _) => (Ok (Obj path 0), w)
           end.

(** [f.seek(off, whence)]; the moved file object is returned. *)
Definition seek (f : t) (off : Z) (wh : whence) : py t :=
  fun w =>
    let target := match wh with
                  | SEEK_SET => off
                  | SEEK_END => size_of w (name f) + off
                  end in
    if target <? 0 then (Raise (OSError "[Errno 22] Invalid argument"), w)
    else (Ok (Obj (name f) target), w).

Definition tell (f : t) : py Z := ret (pos f).

(** Content after writing [data] at position [p]: bytes under the data
    are replaced; a write that reaches past the end grows the file, and a
    gap left before it is filled with zero bytes. *)
Definition pwrite (content : list byte) (p : nat) (data : list byte) : list byte :=
  take p content ++ replicate (p - length content)%nat x00
    ++ data ++ drop (p + length data)%nat content.

(** [f.write(data)] followed by the flush that closing performs. *)
Definition write (f : t) (data : list byte) : py t :=
  fun w =>
    match fs w !! name f with
    | Some (RegularFile content) =>
        let content' := pwrite content (Z.to_nat (pos f)) data in
        (Ok (Obj (name f) (pos f + Z.of_nat (length data))),
         World (<[name f := RegularFile content']> (fs w))
               (os_name w) (stdin w) (trace w))
    | _ => (Raise (OSError "[Errno 9] Bad file descriptor"), w)
    end.

Definition close (f : t) : py unit := ret tt.

(** [with open(path, "rb+") as f: body]: the file is closed on every exit. *)
Definition with_open {A} (path : string) (body : t -> py A) : py A :=
  f <- open_rb_plus path ;;;
  fun w => match body f w with
           | (r, w') => (r, snd (close f w'))
           end.

End File.

(** ** The patch operation *)

(** The three exceptions [binary_write] raises itself.  All are
    [ValueError]s, told apart by their text. *)
Definition offset_negative : exn :=
  ValueError "Offset must be non-negitive".

Definition value_out_of_range (max_value : Z) : exn :=
  ValueError ("Value must no exceed max value:" +:+ Str.of_int max_value).

Definition offset_beyond_file (offset file_size : Z) : exn :=
  ValueError ("Offset:" +:+ Str.of_int offset
              +:+ " is beyound end of file [size]:"
              +:+ Str.of_int file_size +:+ " bytes").

(** The one [bytes] raises for an element outside [range(0, 256)]. *)
Definition not_a_byte : exn := ValueError "bytes must be in range(0, 256)".

(** [bytes(ints)]: every element must be in [range(0, 256)]. *)
Fixpoint bytes (ints : list Z) : py (list byte) :=
  match ints with
  | [] => ret []
  | n :: ints' =>
      match (if n <? 0 then None else Byte.of_N (Z.to_N n)) with
      | None => raise not_a_byte
      | Some b => bs <- bytes ints' ;;; ret (b :: bs)
      end
  end.

(** The body of the [try] block of [binary_write]. *)
Definition binary_write_try (value max_value offset : Z) (file_path : string) : py unit :=
  if offset <? 0 then raise offset_negative else
  if negb ((0 <=? value) && (value <=? max_value)) then
    raise (value_out_of_range max_value)
  else
  File.with_open file_path (fun f =>
    f <- File.seek f 0 File.SEEK_END ;;;
    file_size <- File.tell f ;;;
    if offset >=? file_size then
      raise (offset_beyond_file offset file_size)
    else
    f <- File.seek f offset File.SEEK_SET ;;;
    data <- bytes [value] ;;;
    f <- File.write f data ;;;
    File.close f ;;;
    print (Str.LF +:+ "Wrote value:" +:+ Str.of_int value
           +:+ " to offset:" +:+ Str.of_int offset +:+ Str.LF)).

Definition binary_write (value max_value offset : Z) (file_path : string) : py unit :=
  try_except (binary_write_try value max_value offset file_path)
    (fun e => match e with
              | FileNotFoundError _ => Some (print ("File not found: " +:+ file_path))
              | ValueError err => Some (print ("Value Error: " +:+ err))
              | OSError err => Some (print ("OS Error: " +:+ err))
              | _ => None
              end).

(** ** Path cleanup *)

(** A [pathlib.Path] object, as built from the string given to its
    constructor. *)
Inductive Path := PathOf (arg : string).

Definition Path_arg (p : Path) : string := match p with PathOf arg => arg end.

Definition clean_file_path (raw_path : string) : Path :=
  let cleaned := Str.strip None raw_path in
  let cleaned := if Str.startswith cleaned "& "
                 then Str.slice_from 2 cleaned   (* remove & [space] *)
                 else cleaned in
  let cleaned := Str.strip (Some Str.squote) (Str.strip (Some Str.dquote) cleaned) in
  PathOf cleaned.

(** ** Tables *)

Definition version : string := "1.0".

Definition banner : string :=
  Str.LF +:+ Str.LF
    +:+ " ____  _                   _                             " +:+ Str.LF
    +:+ "/ ___|| |_ ___  _ __   ___| | _____  ___ _ __            " +:+ Str.LF
    +:+ "\___ \| __/ _ \| '_ \ / _ \ |/ / _ \/ _ \ '_ \           " +:+ Str.LF
    +:+ " ___) | || (_) | | | |  __/   <  __/  __/ |_) |          " +:+ Str.LF
    +:+ "|____/ \__\___/|_| |_|\___|_|\_\___|\___| .__/           " +:+ Str.LF
    +:+ "  ____                        _____    _|_|_             " +:+ Str.LF
    +:+ " / ___| __ _ _ __ ___   ___  | ____|__| (_) |_ ___  _ __ " +:+ Str.LF
    +:+ "| |  _ / _` | '_ ` _ \ / _ \ |  _| / _` | | __/ _ \| '__|" +:+ Str.LF
    +:+ "| |_| | (_| | | | | | |  __/ | |__| (_| | | || (_) | |   " +:+ Str.LF
    +:+ " \____|\__,_|_| |_| |_|\___| |_____\__,_|_|\__\___/|_|   " +:+ Str.LF
    +:+ "Version:" +:+ version +:+ Str.LF.

(** A Python [dict] literal, as its items in source order. *)
Fixpoint assoc {K V} `{EqDecision K} (d : list (K * V)) (k : K) : option V :=
  match d with
  | [] => None
  | (k', v) :: d' => if decide (k = k') then Some v else assoc d' k
  end.

(** [d[k]]: the value under [k], [KeyError] when there is none.  The key
    may be [None], which no table has. *)
Definition getitem {K V} `{EqDecision K} (as_key : option K -> dict_key)
    (d : list (K * V)) (k : option K) : py V :=
  match k with
  | None => raise (KeyError (as_key None))
  | Some k' =>
      match assoc d k' with
      | Some v => ret v
      | None => raise (KeyError (as_key k))
      end
  end.

Definition ATTRIBUTE_VALUES : list (attributes * Z) :=
  [ (health, 255); (agility, 10) ].

Definition OFFSETS : list (character_name * list (attributes * Z)) :=
  [ (Drake, [ (health, 340); (agility, 99999) ]);
    (Farley, [ (health, 99999) ]) ].

(** ** The menus *)

Module game_character.
Local Abbreviation attribute_kind := attributes (only parsing).
Record t := new { name : option character_name; attributes : option attributes }.
Definition set_name (c : t) (n : character_name) : t := new (Some n) (attributes c).
Definition set_attributes (c : t) (a : attribute_kind) : t := new (name c) (Some a).
End game_character.

Definition clear_screen : py unit :=
  fun w => if String.eqb (os_name w) "nt"
           then log (EvSystem "cls") w
           else log (EvSystem "clear") w.

(** [quit(code)] raises [SystemExit]. *)
Definition quit {A} (code : Z) : py A := raise (SystemExit code).

(** [for key, value in options.items(): print(f"[{key}] {value}")] *)
Fixpoint print_options (options : list (string * string)) : py unit :=
  match options with
  | [] => ret tt
  | (key, value) :: options' =>
      print ("[" +:+ key +:+ "] " +:+ value) ;;; print_options options'
  end.

(** The part of [edit_menu] after its [match]: look up the offset and the
    value of the selection and write the byte. *)
Definition edit_apply (str_file_path : string) (character : game_character.t) : py unit :=
  row <- getitem KeyName OFFSETS (game_character.name character) ;;;
  offset <- getitem KeyAttr row (game_character.attributes character) ;;;
  value <- getitem KeyAttr ATTRIBUTE_VALUES (game_character.attributes character) ;;;
  binary_write value 255 offset str_file_path.

Section Menus.

(** [str(file_path)], the rendering of a path object by [pathlib]. *)
Variable str_of_path : Path -> string.

(** The two menus call themselves and each other instead of looping.
    [fuel] is the depth of calls the interpreter still allows; at its end
    the call raises [RecursionError].  [edit_menu] mutates the
    [game_character] it shares with its caller: the state it leaves the
    object in is its result here. *)
Fixpoint main_menu (fuel : nat) (file_path : Path) {struct fuel} : py unit :=
  match fuel with
  | O => raise RecursionError
  | S fuel' =>
      let character := game_character.new None None in
      print "Select your Character:" ;;;
      print_options [ ("1", "Drake"); ("2", "Farely"); ("0", "Exit") ] ;;;
      line <- input "> " ;;;
      let choice := Str.lower (Str.strip None line) in
      character <-
        (if String.eqb choice "0" then
           print (Str.LF +:+ "BYE!!" +:+ Str.LF) ;;;
           quit 0
         else if String.eqb choice "1" then
           ret (game_character.set_name character Drake)
         else if String.eqb choice "2" then
           ret (game_character.set_name character Farley)
         else
           print (Str.LF +:+ "Selection not found" +:+ Str.LF) ;;;
           main_menu fuel' file_path ;;;
           ret character) ;;;
      edit_menu fuel' character file_path ;;;
      ret tt
  end
with edit_menu (fuel : nat) (character : game_character.t) (file_path : Path)
    {struct fuel} : py game_character.t :=
  match fuel with
  | O => raise RecursionError
  | S fuel' =>
      print "What would you like to modify?" ;;;
      print_options [ ("1", "Health"); ("0", "Back") ] ;;;
      line <- input "> " ;;;
      let choice := Str.lower (Str.strip None line) in
      character <-
        (if String.eqb choice "0" then
           clear_screen ;;;
           main_menu fuel' file_path ;;;
           ret character
         else if String.eqb choice "1" then
           ret (game_character.set_attributes character health)
         else
           edit_menu fuel' character file_path) ;;;
      edit_apply (str_of_path file_path) character ;;;
      edit_menu fuel' character file_path
  end.

Definition main (fuel : nat) : py unit :=
  match fuel with
  | O => raise RecursionError
  | S fuel' =>
      clear_screen ;;;
      print banner ;;;
      raw_path <- input ("Drag and drop a save file here, then press Enter:" +:+ Str.LF) ;;;
      let file_path := clean_file_path raw_path in
      clear_screen ;;;
      main_menu fuel' file_path
  end.

End Menus.

(** The exit status of the interpreter once the script has finished: that of
    [SystemExit] if it was raised, 1 after any other uncaught exception. *)
Definition exit_status {A} (r : result A) : Z :=
  match r with
  | Ok _ => 0
  | Raise (SystemExit code) => code
  | Raise _ => 1
  end.

(** The Offset Table as a partial function of the pair: what the two
    subscripts of [OFFSETS[name][attribute]] find, if they find anything. *)
Definition offset_of (name : character_name) (attribute : attributes) : option Z :=
  match assoc OFFSETS name with
  | Some row => assoc row attribute
  | None => None
  end.

(** ** Observations and sample worlds *)

(** The world [w] once the events [evs] have followed those it had seen. *)
Definition logged (w : world) (evs : list event) : world :=
  World (fs w) (os_name w) (stdin w) (trace w ++ evs).

(** The bytes of the regular file at [path], if there is one. *)
Definition file_bytes (w : world) (path : string) : option (list byte) :=
  match fs w !! path with
  | Some (RegularFile content) => Some content
  | _ => None
  end.

(** A save file of four zero bytes, and nothing else. *)
Definition w0 : world :=
  World {[ "save.sav" := RegularFile (replicate 4%nat x00) ]} "posix" [] [].

Definition with_stdin (lines : list string) (w : world) : world :=
  World (fs w) (os_name w) lines (trace w).

(** ** Notions used to state further properties *)

(** The line [binary_write] prints once it has written. *)
Definition wrote_line (value offset : Z) : string :=
  Str.LF +:+ "Wrote value:" +:+ Str.of_int value
  +:+ " to offset:" +:+ Str.of_int offset +:+ Str.LF.

(** [touched p allowed fs fs']: going from [fs] to [fs'], no path appears or
    disappears, what is not a regular file stays as it is, every regular
    file keeps its length, and a byte that is no longer what it was lies in
    the file at [p], at an index and with a new value that [allowed]
    accepts. *)
Definition touched (p : string) (allowed : nat -> byte -> Prop)
    (fs fs' : gmap string node) : Prop :=
  forall q,
    match fs !! q with
    | Some (RegularFile c) =>
        exists c',
          fs' !! q = Some (RegularFile c')
          /\ length c' = length c
          /\ forall i : nat,
               c' !! i = c !! i
               \/ (q = p /\ exists b, c' !! i = Some b /\ allowed i b)
    | other => fs' !! q = other
    end.

(** [starts_in p s]: [s] has a first character and [p] holds of it. *)
Definition starts_in (p : ascii -> bool) (s : string) : bool :=
  match s with
  | String c _ => p c
  | EmptyString => false
  end.

(** [ends_in p s]: [s] has a last character and [p] holds of it. *)
Fixpoint ends_in (p : ascii -> bool) (s : string) : bool :=
  match s with
  | EmptyString => false
  | String c EmptyString => p c
  | String _ s' => ends_in p s'
  end.

(** The characters [clean_file_path] strips from the ends: white space and
    the two quotes. *)
Definition edge_char (c : ascii) : bool :=
  Str.isspace c || Str.mem c Str.dquote || Str.mem c Str.squote.

(** The conditions under which [binary_write] gets as far as writing. *)
Definition patchable (value max_value offset : Z) (content : list byte) : bool :=
  (0 <=? offset) && (offset <? Z.of_nat (length content))
  && (0 <=? value) && (value <=? max_value) && (value <=? 255).

Definition byte_of_int (value : Z) : byte :=
  default x00 (Byte.of_N (Z.to_N value)).

(** What a call of [binary_write] aimed at a node makes of it. *)
Definition patched_node (value max_value offset : Z) (n : node) : node :=
  match n with
  | RegularFile c =>
      if patchable value max_value offset c
      then RegularFile (<[Z.to_nat offset := byte_of_int value]> c)
      else n
  | Inaccessible _ => n
  end.

(** The file system a call of [binary_write] leaves, as a function of the
    one it found. *)
Definition patched_fs (value max_value offset : Z) (path : string)
    (fs : gmap string node) : gmap string node :=
  alter (patched_node value max_value offset) path fs.

(** The bytes the menus may write: 0xff at offset 340 or 99999. *)
Definition menu_bytes (i : nat) (b : byte) : Prop :=
  (Z.of_nat i = 340 \/ Z.of_nat i = 99999) /\ b = xff.

(** What a menu makes of the line it reads. *)
Definition choice_of (line : string) : string := Str.lower (Str.strip None line).

(** What the two menus show before they read their line. *)
Definition main_menu_shown : list event :=
  [EvPrint "Select your Character:";
   EvPrint "[1] Drake"; EvPrint "[2] Farely"; EvPrint "[0] Exit";
   EvInput "> "].

Definition edit_menu_shown : list event :=
  [EvPrint "What would you like to modify?";
   EvPrint "[1] Health"; EvPrint "[0] Back";
   EvInput "> "].

(** The world once a line has been read: [rest] is what is left of standard
    input and [evs] what has happened meanwhile. *)
Definition answered (w : world) (rest : list string) (evs : list event) : world :=
  World (fs w) (os_name w) rest (trace w ++ evs).

(** How a run [r] started in [w] with call depth [fuel] can end: always by
    an exception, having read the lines [consumed], with the file system
    changed at most at the menu bytes of the file at [p].  The exception is
    [SystemExit(0)] after a line that reads "0", [EOFError] when standard
    input has run out before the depth has, or [RecursionError] when each
    level of depth has read its line. *)
Definition run_ends {A} (p : string) (fuel : nat) (w : world)
    (r : result A * world) : Prop :=
  exists e w' consumed,
    r = (Raise e, w')
    /\ stdin w = consumed ++ stdin w'
    /\ os_name w' = os_name w
    /\ touched p menu_bytes (fs w) (fs w')
    /\ ((e = SystemExit 0
         /\ (length consumed <= fuel)%nat
         /\ exists line, last consumed = Some line /\ choice_of line = "0")
        \/ (e = EOFError /\ stdin w' = [] /\ (length consumed < fuel)%nat)
        \/ (e = RecursionError /\ length consumed = fuel)).

(** The command [clear_screen] runs. *)
Definition clear_command (w : world) : string :=
  if String.eqb (os_name w) "nt" then "cls" else "clear".

(** The offset the menus patch for a character: that of its health. *)
Definition health_offset (name : character_name) : Z :=
  match name with
  | Drake => 340
  | Farley => 99999
  end.

(** The answer that selects a character in the first menu. *)
Definition character_key (name : character_name) : string :=
  match name with
  | Drake => "1"
  | Farley => "2"
  end.


(** * Properties *)

(** ** The monad *)

Lemma bind_ok {A B} (m : py A) (k : A -> py B) w a w' :
  m w = (Ok a, w') -> bind m k w = k a w'.
Proof. intros E. unfold bind. now rewrite E. Qed.

(** An exception raised by the first of two commands is the outcome of the
    sequence: the second is never run. *)
Lemma bind_raise {A B} (m : py A) (k : A -> py B) w e w' :
  m w = (Raise e, w') -> bind m k w = (Raise e, w').
Proof. intros E. unfold bind. now rewrite E. Qed.

Lemma logged_nil w : logged w [] = w.
Proof. destruct w. unfold logged. simpl. now rewrite app_nil_r. Qed.

Lemma logged_logged w evs evs' :
  logged (logged w evs) evs' = logged w (evs ++ evs').
Proof. unfold logged. simpl. now rewrite app_assoc. Qed.

Lemma log_logged e w : log e w = (Ok tt, logged w [e]).
Proof. reflexivity. Qed.

(** ** Writing into a list of bytes *)

(** Inside the file, writing one byte replaces the byte at that position. *)
Lemma pwrite_inside content p b :
  (p < length content)%nat -> File.pwrite content p [b] = <[p := b]> content.
Proof.
  intros Hp. unfold File.pwrite.
  replace (p - length content)%nat with 0%nat by lia.
  rewrite insert_take_drop by exact Hp. simpl.
  now replace (p + 1)%nat with (S p) by lia.
Qed.

(** At or past the end, the same write makes the file longer: this is what
    the size check of [binary_write] rules out. *)
Lemma pwrite_beyond_grows content p b :
  (length content <= p)%nat ->
  length (File.pwrite content p [b]) = S p.
Proof.
  intros Hp. unfold File.pwrite.
  rewrite !length_app, length_take, length_replicate, length_drop. simpl. lia.
Qed.

Lemma bytes_one_ok value :
  0 <= value <= 255 ->
  exists b, Byte.to_N b = Z.to_N value /\ forall w, bytes [value] w = (Ok [b], w).
Proof.
  intros Hv.
  destruct (Byte.of_N (Z.to_N value)) as [b|] eqn:E.
  - exists b. split; [now apply Byte.to_of_N|].
    intros w. unfold bytes. destruct (Z.ltb_spec value 0); [lia|].
    now rewrite E.
  - apply Byte.of_N_None_iff in E. lia.
Qed.

Lemma bytes_one_bad value w :
  value < 0 \/ 255 < value -> bytes [value] w = (Raise not_a_byte, w).
Proof.
  intros Hv. unfold bytes.
  destruct (Z.ltb_spec value 0); [reflexivity|].
  destruct (Byte.of_N (Z.to_N value)) as [b|] eqn:E; [|reflexivity].
  apply Byte.to_of_N in E. pose proof (Byte.to_N_bounded b). lia.
Qed.

(** ** File objects, operation by operation *)

Lemma open_absent path w :
  fs w !! path = None ->
  File.open_rb_plus path w
  = (Raise (if embedded_null path
            then ValueError "embedded null byte"
            else FileNotFoundError path),
     logged w [EvOpen path]).
Proof.
  intros Hf. unfold File.open_rb_plus. rewrite (bind_ok _ _ _ _ _ (log_logged _ _)).
  change (fs (logged w [EvOpen path])) with (fs w). rewrite Hf.
  now destruct (embedded_null path).
Qed.

Lemma open_missing path w :
  fs w !! path = None ->
  embedded_null path = false ->
  File.open_rb_plus path w = (Raise (FileNotFoundError path), logged w [EvOpen path]).
Proof. intros Hf Hnul. rewrite (open_absent _ _ Hf). now rewrite Hnul. Qed.

Lemma open_inaccessible path w err :
  fs w !! path = Some (Inaccessible err) ->
  File.open_rb_plus path w = (Raise (OSError err), logged w [EvOpen path]).
Proof.
  intros Hf. unfold File.open_rb_plus. rewrite (bind_ok _ _ _ _ _ (log_logged _ _)).
  change (fs (logged w [EvOpen path])) with (fs w). now rewrite Hf.
Qed.

Lemma open_regular path w content :
  fs w !! path = Some (RegularFile content) ->
  File.open_rb_plus path w = (Ok (File.Obj path 0), logged w [EvOpen path]).
Proof.
  intros Hf. unfold File.open_rb_plus. rewrite (bind_ok _ _ _ _ _ (log_logged _ _)).
  change (fs (logged w [EvOpen path])) with (fs w). now rewrite Hf.
Qed.

(** Leaving a [with] block closes the file and changes nothing else. *)
Lemma with_open_regular {A} path (body : File.t -> py A) w content :
  fs w !! path = Some (RegularFile content) ->
  File.with_open path body w = body (File.Obj path 0) (logged w [EvOpen path]).
Proof.
  intros Hf. unfold File.with_open.
  rewrite (bind_ok _ _ _ _ _ (open_regular _ _ _ Hf)).
  now destruct (body _ _).
Qed.

Lemma seek_end f w content :
  fs w !! File.name f = Some (RegularFile content) ->
  File.seek f 0 File.SEEK_END w
  = (Ok (File.Obj (File.name f) (Z.of_nat (length content))), w).
Proof.
  intros Hf. unfold File.seek, File.size_of. rewrite Hf, Z.add_0_r.
  now destruct (Z.ltb_spec (Z.of_nat (length content)) 0); [lia|].
Qed.

Lemma seek_set f w off :
  0 <= off ->
  File.seek f off File.SEEK_SET w = (Ok (File.Obj (File.name f) off), w).
Proof.
  intros Ho. unfold File.seek. now destruct (Z.ltb_spec off 0); [lia|].
Qed.

Lemma write_regular f w content data :
  fs w !! File.name f = Some (RegularFile content) ->
  File.write f data w
  = (Ok (File.Obj (File.name f) (File.pos f + Z.of_nat (length data))),
     World (<[File.name f :=
                RegularFile (File.pwrite content (Z.to_nat (File.pos f)) data)]> (fs w))
           (os_name w) (stdin w) (trace w)).
Proof. intros Hf. unfold File.write. now rewrite Hf. Qed.

(** ** The [try] block of [binary_write], outcome by outcome *)

Section TryBlock.

Variables (value max_value offset : Z) (file_path : string) (w : world).

Lemma try_offset_negative :
  offset < 0 ->
  binary_write_try value max_value offset file_path w = (Raise offset_negative, w).
Proof.
  intros Ho. unfold binary_write_try.
  now destruct (Z.ltb_spec offset 0); [|lia].
Qed.

Lemma try_value_out_of_range :
  0 <= offset -> value < 0 \/ max_value < value ->
  binary_write_try value max_value offset file_path w
  = (Raise (value_out_of_range max_value), w).
Proof.
  intros Ho Hv. unfold binary_write_try.
  destruct (Z.ltb_spec offset 0); [lia|].
  destruct (Z.leb_spec 0 value), (Z.leb_spec value max_value);
    simpl; first [reflexivity | lia].
Qed.

Hypothesis offset_ok : 0 <= offset.
Hypothesis value_ok : 0 <= value <= max_value.

(** Both validations pass: the block goes on to open the file. *)
Lemma try_reaches_open :
  binary_write_try value max_value offset file_path w
  = File.with_open file_path (fun f =>
      f <- File.seek f 0 File.SEEK_END ;;;
      file_size <- File.tell f ;;;
      if offset >=? file_size then
        raise (offset_beyond_file offset file_size)
      else
      f <- File.seek f offset File.SEEK_SET ;;;
      data <- bytes [value] ;;;
      f <- File.write f data ;;;
      File.close f ;;;
      print (Str.LF +:+ "Wrote value:" +:+ Str.of_int value
             +:+ " to offset:" +:+ Str.of_int offset +:+ Str.LF)) w.
Proof.
  unfold binary_write_try.
  destruct (Z.ltb_spec offset 0); [lia|].
  destruct (Z.leb_spec 0 value); [|lia].
  destruct (Z.leb_spec value max_value); [|lia].
  reflexivity.
Qed.

Lemma try_file_absent :
  fs w !! file_path = None ->
  binary_write_try value max_value offset file_path w
  = (Raise (if embedded_null file_path
            then ValueError "embedded null byte"
            else FileNotFoundError file_path),
     logged w [EvOpen file_path]).
Proof.
  intros Hf. rewrite try_reaches_open. unfold File.with_open.
  now rewrite (bind_raise _ _ _ _ _ (open_absent _ _ Hf)).
Qed.

Lemma try_file_missing :
  fs w !! file_path = None ->
  embedded_null file_path = false ->
  binary_write_try value max_value offset file_path w
  = (Raise (FileNotFoundError file_path), logged w [EvOpen file_path]).
Proof. intros Hf Hnul. rewrite (try_file_absent Hf). now rewrite Hnul. Qed.

Lemma try_embedded_null :
  fs w !! file_path = None ->
  embedded_null file_path = true ->
  binary_write_try value max_value offset file_path w
  = (Raise (ValueError "embedded null byte"), logged w [EvOpen file_path]).
Proof. intros Hf Hnul. rewrite (try_file_absent Hf). now rewrite Hnul. Qed.

Lemma try_file_inaccessible err :
  fs w !! file_path = Some (Inaccessible err) ->
  binary_write_try value max_value offset file_path w
  = (Raise (OSError err), logged w [EvOpen file_path]).
Proof.
  intros Hf. rewrite try_reaches_open. unfold File.with_open.
  now rewrite (bind_raise _ _ _ _ _ (open_inaccessible _ _ _ Hf)).
Qed.

Variable content : list byte.
Hypothesis file_ok : fs w !! file_path = Some (RegularFile content).

Lemma try_offset_beyond :
  Z.of_nat (length content) <= offset ->
  binary_write_try value max_value offset file_path w
  = (Raise (offset_beyond_file offset (Z.of_nat (length content))),
     logged w [EvOpen file_path]).
Proof.
  intros Ho. rewrite try_reaches_open, (with_open_regular _ _ _ _ file_ok).
  erewrite bind_ok by (apply seek_end; exact file_ok).
  unfold File.tell. erewrite bind_ok by reflexivity. cbn [File.pos File.name].
  now destruct (Z.geb_spec offset (Z.of_nat (length content))); [|lia].
Qed.

Hypothesis offset_inside : offset < Z.of_nat (length content).

Lemma try_not_a_byte :
  255 < value ->
  binary_write_try value max_value offset file_path w
  = (Raise not_a_byte, logged w [EvOpen file_path]).
Proof.
  intros Hv. rewrite try_reaches_open, (with_open_regular _ _ _ _ file_ok).
  erewrite bind_ok by (apply seek_end; exact file_ok).
  unfold File.tell. erewrite bind_ok by reflexivity. cbn [File.pos File.name].
  destruct (Z.geb_spec offset (Z.of_nat (length content))); [lia|].
  erewrite bind_ok by (now apply seek_set).
  now erewrite bind_raise by (apply bytes_one_bad; lia).
Qed.

Lemma try_writes :
  value <= 255 ->
  exists b, Byte.to_N b = Z.to_N value /\
    binary_write_try value max_value offset file_path w
    = (Ok tt,
       World (<[file_path := RegularFile (<[Z.to_nat offset := b]> content)]> (fs w))
             (os_name w) (stdin w)
             (trace w ++ [EvOpen file_path;
                          EvPrint (Str.LF +:+ "Wrote value:" +:+ Str.of_int value
                                   +:+ " to offset:" +:+ Str.of_int offset
                                   +:+ Str.LF)])).
Proof.
  intros Hv. destruct (bytes_one_ok value) as (b & Hb & Hbytes); [lia|].
  exists b. split; [exact Hb|].
  rewrite try_reaches_open, (with_open_regular _ _ _ _ file_ok).
  erewrite bind_ok by (apply seek_end; exact file_ok).
  unfold File.tell. erewrite bind_ok by reflexivity. cbn [File.pos File.name].
  destruct (Z.geb_spec offset (Z.of_nat (length content))); [lia|].
  erewrite bind_ok by (now apply seek_set).
  erewrite bind_ok by apply Hbytes.
  erewrite bind_ok by (apply write_regular; exact file_ok).
  unfold File.close. erewrite bind_ok by reflexivity.
  cbn [File.pos File.name]. rewrite pwrite_inside by lia.
  unfold print, log. cbn [fs os_name stdin trace logged].
  now rewrite <- app_assoc.
Qed.

End TryBlock.

(** ** The [except] clauses of [binary_write] *)

Section Handlers.

Variables (value max_value offset : Z) (file_path : string) (w w' : world).

Lemma binary_write_completes :
  binary_write_try value max_value offset file_path w = (Ok tt, w') ->
  binary_write value max_value offset file_path w = (Ok tt, w').
Proof. intros E. unfold binary_write, try_except. now rewrite E. Qed.

Lemma binary_write_catches_ValueError msg :
  binary_write_try value max_value offset file_path w = (Raise (ValueError msg), w') ->
  binary_write value max_value offset file_path w
  = (Ok tt, logged w' [EvPrint ("Value Error: " +:+ msg)]).
Proof. intros E. unfold binary_write, try_except. now rewrite E. Qed.

Lemma binary_write_catches_FileNotFoundError filename :
  binary_write_try value max_value offset file_path w
  = (Raise (FileNotFoundError filename), w') ->
  binary_write value max_value offset file_path w
  = (Ok tt, logged w' [EvPrint ("File not found: " +:+ file_path)]).
Proof. intros E. unfold binary_write, try_except. now rewrite E. Qed.

Lemma binary_write_catches_OSError msg :
  binary_write_try value max_value offset file_path w = (Raise (OSError msg), w') ->
  binary_write value max_value offset file_path w
  = (Ok tt, logged w' [EvPrint ("OS Error: " +:+ msg)]).
Proof. intros E. unfold binary_write, try_except. now rewrite E. Qed.

End Handlers.

(** ** Whole calls of [binary_write], outcome by outcome *)

Section Calls.

Variables (value max_value offset : Z) (file_path : string) (w : world).

Lemma call_offset_negative :
  offset < 0 ->
  binary_write value max_value offset file_path w
  = (Ok tt, logged w [EvPrint "Value Error: Offset must be non-negitive"]).
Proof.
  intros Ho. apply binary_write_catches_ValueError with (msg := "Offset must be non-negitive").
  now apply try_offset_negative.
Qed.

Lemma call_value_out_of_range :
  0 <= offset -> value < 0 \/ max_value < value ->
  binary_write value max_value offset file_path w
  = (Ok tt, logged w [EvPrint ("Value Error: Value must no exceed max value:"
                               +:+ Str.of_int max_value)]).
Proof.
  intros Ho Hv.
  exact (binary_write_catches_ValueError _ _ _ _ _ _ _
           (try_value_out_of_range value max_value offset file_path w Ho Hv)).
Qed.

Hypothesis offset_ok : 0 <= offset.
Hypothesis value_ok : 0 <= value <= max_value.

Lemma call_file_missing :
  fs w !! file_path = None ->
  embedded_null file_path = false ->
  binary_write value max_value offset file_path w
  = (Ok tt, logged w [EvOpen file_path; EvPrint ("File not found: " +:+ file_path)]).
Proof.
  intros Hf Hnul.
  rewrite (binary_write_catches_FileNotFoundError _ _ _ _ _ _ _
             (try_file_missing value max_value offset file_path w
                offset_ok value_ok Hf Hnul)).
  now rewrite logged_logged.
Qed.

Lemma call_embedded_null :
  fs w !! file_path = None ->
  embedded_null file_path = true ->
  binary_write value max_value offset file_path w
  = (Ok tt, logged w [EvOpen file_path;
                      EvPrint "Value Error: embedded null byte"]).
Proof.
  intros Hf Hnul.
  rewrite (binary_write_catches_ValueError _ _ _ _ _ _ _
             (try_embedded_null value max_value offset file_path w
                offset_ok value_ok Hf Hnul)).
  now rewrite logged_logged.
Qed.

Lemma call_file_absent :
  fs w !! file_path = None ->
  binary_write value max_value offset file_path w
  = (Ok tt, logged w [EvOpen file_path;
                      EvPrint (if embedded_null file_path
                               then "Value Error: embedded null byte"
                               else "File not found: " +:+ file_path)]).
Proof.
  intros Hf. destruct (embedded_null file_path) eqn:Hnul.
  - now apply call_embedded_null.
  - now apply call_file_missing.
Qed.

Lemma call_file_inaccessible err :
  fs w !! file_path = Some (Inaccessible err) ->
  binary_write value max_value offset file_path w
  = (Ok tt, logged w [EvOpen file_path; EvPrint ("OS Error: " +:+ err)]).
Proof.
  intros Hf.
  rewrite (binary_write_catches_OSError _ _ _ _ _ _ _
             (try_file_inaccessible value max_value offset file_path w
                offset_ok value_ok err Hf)).
  now rewrite logged_logged.
Qed.

Variable content : list byte.
Hypothesis file_ok : fs w !! file_path = Some (RegularFile content).

Lemma call_offset_beyond :
  Z.of_nat (length content) <= offset ->
  binary_write value max_value offset file_path w
  = (Ok tt, logged w [EvOpen file_path;
                      EvPrint ("Value Error: Offset:" +:+ Str.of_int offset
                               +:+ " is beyound end of file [size]:"
                               +:+ Str.of_int (Z.of_nat (length content))
                               +:+ " bytes")]).
Proof.
  intros Ho.
  rewrite (binary_write_catches_ValueError _ _ _ _ _ _ _
             (try_offset_beyond value max_value offset file_path w
                offset_ok value_ok content file_ok Ho)).
  now rewrite logged_logged.
Qed.

Lemma call_not_a_byte :
  offset < Z.of_nat (length content) -> 255 < value ->
  binary_write value max_value offset file_path w
  = (Ok tt, logged w [EvOpen file_path;
                      EvPrint "Value Error: bytes must be in range(0, 256)"]).
Proof.
  intros Ho Hv.
  rewrite (binary_write_catches_ValueError _ _ _ _ _ _ _
             (try_not_a_byte value max_value offset file_path w
                offset_ok value_ok content file_ok Ho Hv)).
  now rewrite logged_logged.
Qed.

End Calls.

(** Every call of [binary_write] comes back normally with [None], after at
    most one [open] and exactly one [print]; and unless it printed the
    "Wrote value" line, it left the file system as it was. *)
Lemma binary_write_outcome value max_value offset file_path w :
  exists opened text fs',
    binary_write value max_value offset file_path w
    = (Ok tt, World fs' (os_name w) (stdin w) (trace w ++ opened ++ [EvPrint text]))
    /\ (opened = [] \/ opened = [EvOpen file_path])
    /\ (fs' = fs w
        \/ text = Str.LF +:+ "Wrote value:" +:+ Str.of_int value
                  +:+ " to offset:" +:+ Str.of_int offset +:+ Str.LF).
Proof.
  destruct (Z.lt_ge_cases offset 0) as [Ho|Ho].
  { eexists [], _, (fs w). rewrite call_offset_negative by exact Ho. auto. }
  destruct (Z.lt_ge_cases value 0) as [Hv|Hv];
    [|destruct (Z.lt_ge_cases max_value value) as [Hm|Hm]].
  1,2: eexists [], _, (fs w); rewrite call_value_out_of_range by lia; auto.
  assert (Hv' : 0 <= value <= max_value) by lia.
  destruct (fs w !! file_path) as [[content|err]|] eqn:Hf.
  - destruct (Z.le_gt_cases (Z.of_nat (length content)) offset) as [Hs|Hs];
      [|destruct (Z.lt_ge_cases 255 value) as [Hb|Hb]].
    + eexists [EvOpen file_path], _, (fs w).
      rewrite (call_offset_beyond _ _ _ _ _ Ho Hv' _ Hf Hs). auto.
    + eexists [EvOpen file_path], _, (fs w).
      rewrite (call_not_a_byte _ _ _ _ _ Ho Hv' _ Hf Hs Hb). auto.
    + destruct (try_writes value max_value offset file_path w Ho Hv'
                  content Hf Hs ltac:(lia)) as (b & _ & E).
      eexists [EvOpen file_path], _, _.
      rewrite (binary_write_completes _ _ _ _ _ _ E). auto.
  - eexists [EvOpen file_path], _, (fs w).
    rewrite (call_file_inaccessible _ _ _ _ _ Ho Hv' _ Hf). auto.
  - eexists [EvOpen file_path], _, (fs w).
    rewrite (call_file_absent _ _ _ _ _ Ho Hv' Hf). auto.
Qed.

(** ** Claims about the patch operation *)

(** C1: when the target is a regular file longer than [offset], with
    [0 <= offset] and [0 <= value <= max_value <= 255], [binary_write] puts
    the byte [value] at position [offset], keeps every other byte of the
    file, keeps its length, and leaves every other path alone. *)
Theorem binary_write_patches_one_byte value max_value offset file_path w content :
  fs w !! file_path = Some (RegularFile content) ->
  0 <= offset < Z.of_nat (length content) ->
  0 <= value <= max_value ->
  max_value <= 255 ->
  let r := binary_write value max_value offset file_path w in
  exists b content',
    Byte.to_N b = Z.to_N value
    /\ fst r = Ok tt
    /\ file_bytes (snd r) file_path = Some content'
    /\ content' !! Z.to_nat offset = Some b
    /\ (forall i : nat, i <> Z.to_nat offset -> content' !! i = content !! i)
    /\ length content' = length content
    /\ (forall p, p <> file_path -> fs (snd r) !! p = fs w !! p).
Proof.
  intros Hf Ho Hv Hm r.
  destruct (try_writes value max_value offset file_path w ltac:(lia) Hv
              content Hf ltac:(lia) ltac:(lia)) as (b & Hb & E).
  apply binary_write_completes in E. subst r. rewrite E.
  exists b, (<[Z.to_nat offset := b]> content). cbn [fst snd].
  split; [exact Hb|]. split; [reflexivity|]. split.
  { unfold file_bytes. cbn [fs]. now rewrite lookup_insert_eq. }
  split; [apply list_lookup_insert_eq; lia|].
  split; [intros i Hi; now apply list_lookup_insert_ne|].
  split; [apply length_insert|].
  intros p Hp. cbn [fs]. now apply lookup_insert_ne.
Qed.

Lemma binary_write_patches_one_byte_witness :
  let r := binary_write 255 255 2 "save.sav" w0 in
  exists b content',
    Byte.to_N b = Z.to_N 255
    /\ fst r = Ok tt
    /\ file_bytes (snd r) "save.sav" = Some content'
    /\ content' !! Z.to_nat 2 = Some b
    /\ (forall i : nat, i <> Z.to_nat 2 -> content' !! i = replicate 4 x00 !! i)
    /\ length content' = length (replicate 4 x00)
    /\ (forall p, p <> "save.sav" -> fs (snd r) !! p = fs w0 !! p).
Proof.
  apply (binary_write_patches_one_byte 255 255 2 "save.sav" w0 (replicate 4 x00)).
  - reflexivity.
  - simpl. lia.
  - lia.
  - lia.
Defined.

(** The scenario of the specification on a small file: byte 2 of four zero
    bytes becomes 0xff and its neighbours stay zero. *)
Example binary_write_scenario :
  file_bytes (snd (binary_write 255 255 2 "save.sav" w0)) "save.sav"
  = Some [x00; x00; xff; x00].
Proof. vm_compute. reflexivity. Qed.



(** C4, amended: for a regular file, an offset at or past its size, and a
    value that passes the range check, the [try] block raises the
    beyond-end-of-file [ValueError] after opening the file; [binary_write]
    prints it, and the file keeps its bytes and its size. *)
Theorem binary_write_offset_beyond_file value max_value offset file_path w content :
  fs w !! file_path = Some (RegularFile content) ->
  Z.of_nat (length content) <= offset ->
  0 <= value <= max_value ->
  binary_write_try value max_value offset file_path w
  = (Raise (offset_beyond_file offset (Z.of_nat (length content))),
     logged w [EvOpen file_path])
  /\ binary_write value max_value offset file_path w
     = (Ok tt, logged w [EvOpen file_path;
                         EvPrint ("Value Error: Offset:" +:+ Str.of_int offset
                                  +:+ " is beyound end of file [size]:"
                                  +:+ Str.of_int (Z.of_nat (length content))
                                  +:+ " bytes")])
  /\ fs (snd (binary_write value max_value offset file_path w)) = fs w.
Proof.
  intros Hf Ho Hv. assert (Ho' : 0 <= offset) by lia.
  split; [now apply try_offset_beyond|].
  rewrite (call_offset_beyond _ _ _ _ _ Ho' Hv _ Hf Ho). now split.
Qed.

Lemma binary_write_offset_beyond_file_witness :
  binary_write 10 255 4 "save.sav" w0
  = (Ok tt, logged w0 [EvOpen "save.sav";
                       EvPrint "Value Error: Offset:4 is beyound end of file [size]:4 bytes"]).
Proof.
  apply (binary_write_offset_beyond_file 10 255 4 "save.sav" w0 (replicate 4 x00)).
  - reflexivity.
  - simpl. lia.
  - lia.
Defined.

(** C4 fails as stated: with an offset equal to the file size and a value
    above [max_value], the failure is the value-range one, raised before the
    file is even opened. *)
Lemma binary_write_beyond_but_value_checked_first :
  file_bytes w0 "save.sav" = Some (replicate 4 x00)
  /\ binary_write_try 300 255 4 "save.sav" w0 = (Raise (value_out_of_range 255), w0)
  /\ value_out_of_range 255 <> offset_beyond_file 4 4.
Proof. vm_compute. repeat split. discriminate. Qed.

(** C5, amended: for an offset that is not negative and a value below 0 or
    above [max_value], the [try] block raises the value-range [ValueError]
    before any file is opened; [binary_write] prints it and the file system
    is as it was. *)
Theorem binary_write_value_out_of_range value max_value offset file_path w :
  0 <= offset ->
  value < 0 \/ max_value < value ->
  binary_write_try value max_value offset file_path w
  = (Raise (value_out_of_range max_value), w)
  /\ binary_write value max_value offset file_path w
     = (Ok tt, logged w [EvPrint ("Value Error: Value must no exceed max value:"
                                  +:+ Str.of_int max_value)])
  /\ fs (snd (binary_write value max_value offset file_path w)) = fs w.
Proof.
  intros Ho Hv. split; [now apply try_value_out_of_range|].
  rewrite call_value_out_of_range by assumption. now split.
Qed.

Lemma binary_write_value_out_of_range_witness :
  binary_write 300 255 2 "save.sav" w0
  = (Ok tt, logged w0 [EvPrint "Value Error: Value must no exceed max value:255"]).
Proof.
  apply (binary_write_value_out_of_range 300 255 2 "save.sav" w0).
  - lia.
  - right. lia.
Defined.

(** C5 fails as stated: with a negative offset, a value above [max_value]
    is never looked at; the failure is the negative-offset one. *)
Lemma binary_write_value_checked_after_offset :
  binary_write_try 300 255 (-1) "save.sav" w0 = (Raise offset_negative, w0)
  /\ offset_negative <> value_out_of_range 255.
Proof. vm_compute. split; [reflexivity | discriminate]. Qed.

(** A value outside the range is never written, whatever the offset. *)
Lemma binary_write_invalid_value_no_write value max_value offset file_path w :
  value < 0 \/ max_value < value ->
  fs (snd (binary_write value max_value offset file_path w)) = fs w.
Proof.
  intros Hv. destruct (Z.lt_ge_cases offset 0) as [Ho|Ho].
  - now rewrite call_offset_negative.
  - now rewrite call_value_out_of_range.
Qed.

(** C6: for a negative offset, whatever the value, the maximum and the path
    (existing or not), the [try] block raises the negative-offset
    [ValueError] at once: the world is untouched, so the value was not
    checked against a file and no file was opened; [binary_write] prints
    the error and writes nothing. *)
Theorem binary_write_negative_offset value max_value offset file_path w :
  offset < 0 ->
  binary_write_try value max_value offset file_path w = (Raise offset_negative, w)
  /\ binary_write value max_value offset file_path w
     = (Ok tt, logged w [EvPrint "Value Error: Offset must be non-negitive"])
  /\ fs (snd (binary_write value max_value offset file_path w)) = fs w
  /\ trace (snd (binary_write value max_value offset file_path w))
     = trace w ++ [EvPrint "Value Error: Offset must be non-negitive"].
Proof.
  intros Ho. split; [now apply try_offset_negative|].
  rewrite call_offset_negative by exact Ho. now repeat split.
Qed.

Lemma binary_write_negative_offset_witness :
  fs w0 !! "nosave.sav" = None
  /\ binary_write 300 255 (-1) "nosave.sav" w0
     = (Ok tt, logged w0 [EvPrint "Value Error: Offset must be non-negitive"]).
Proof.
  split; [reflexivity|].
  apply (binary_write_negative_offset 300 255 (-1) "nosave.sav" w0). lia.
Defined.

(** C7, amended: when the system reports that nothing exists at the path,
    the path has no NUL character in it, the offset is not negative and the
    value is within [0, max_value], opening the file raises
    [FileNotFoundError]; [binary_write] prints "File not found", writes
    nothing, and there is still nothing at the path afterwards. *)
Theorem binary_write_file_not_found value max_value offset file_path w :
  fs w !! file_path = None ->
  embedded_null file_path = false ->
  0 <= offset ->
  0 <= value <= max_value ->
  binary_write_try value max_value offset file_path w
  = (Raise (FileNotFoundError file_path), logged w [EvOpen file_path])
  /\ binary_write value max_value offset file_path w
     = (Ok tt, logged w [EvOpen file_path;
                         EvPrint ("File not found: " +:+ file_path)])
  /\ fs (snd (binary_write value max_value offset file_path w)) = fs w
  /\ fs (snd (binary_write value max_value offset file_path w)) !! file_path = None.
Proof.
  intros Hf Hnul Ho Hv. split; [now apply try_file_missing|].
  rewrite (call_file_missing _ _ _ _ _ Ho Hv Hf Hnul).
  split; [reflexivity|]. split; [reflexivity | exact Hf].
Qed.

Lemma binary_write_file_not_found_witness :
  binary_write 255 255 340 "nosave.sav" w0
  = (Ok tt, logged w0 [EvOpen "nosave.sav"; EvPrint "File not found: nosave.sav"]).
Proof.
  apply (binary_write_file_not_found 255 255 340 "nosave.sav" w0).
  - reflexivity.
  - reflexivity.
  - lia.
  - lia.
Defined.

(** C7 fails as stated: no file is named by a path with a NUL character in
    it, yet for such a path [open] raises [ValueError], not
    [FileNotFoundError], and what [binary_write] prints is "Value Error". *)
Lemma binary_write_nul_path_is_value_error :
  let path := "a" +:+ String "000"%char "b" in
  fs w0 !! path = None
  /\ binary_write_try 255 255 340 path w0
     = (Raise (ValueError "embedded null byte"), logged w0 [EvOpen path])
  /\ binary_write 255 255 340 path w0
     = (Ok tt, logged w0 [EvOpen path; EvPrint "Value Error: embedded null byte"]).
Proof. vm_compute. auto. Qed.

(** C9: a value above 255 that a larger [max_value] lets through passes the
    range check, and still nothing is ever written: the call returns
    normally with the file system as it was.  With a non-negative offset the
    call goes as far as opening the file; when the file is there and the
    offset inside it, what stops the write is [bytes] refusing the value,
    and that [ValueError] is caught and printed. *)
Theorem binary_write_value_above_byte value max_value offset file_path w :
  255 < value <= max_value ->
  let r := binary_write value max_value offset file_path w in
  (0 <=? value) && (value <=? max_value) = true
  /\ fst r = Ok tt
  /\ fs (snd r) = fs w
  /\ (0 <= offset ->
      exists text, trace (snd r) = trace w ++ [EvOpen file_path; EvPrint text])
  /\ (forall content,
        fs w !! file_path = Some (RegularFile content) ->
        0 <= offset < Z.of_nat (length content) ->
        binary_write_try value max_value offset file_path w
        = (Raise not_a_byte, logged w [EvOpen file_path])
        /\ r = (Ok tt, logged w [EvOpen file_path;
                                 EvPrint "Value Error: bytes must be in range(0, 256)"])).
Proof.
  intros Hv r. subst r.
  split.
  { destruct (Z.leb_spec 0 value), (Z.leb_spec value max_value); simpl; lia. }
  destruct (Z.lt_ge_cases offset 0) as [Ho|Ho].
  { rewrite call_offset_negative by exact Ho. cbn [fst snd].
    split; [reflexivity|]. split; [reflexivity|]. split; intros; lia. }
  assert (Hv' : 0 <= value <= max_value) by lia.
  destruct (fs w !! file_path) as [[content|err]|] eqn:Hf.
  - destruct (Z.le_gt_cases (Z.of_nat (length content)) offset) as [Hs|Hs].
    + rewrite (call_offset_beyond _ _ _ _ _ Ho Hv' _ Hf Hs). cbn [fst snd].
      split; [reflexivity|]. split; [reflexivity|].
      split; [intros _; eexists; reflexivity|].
      intros c Hc Hin. assert (c = content) by congruence. subst c. lia.
    + rewrite (call_not_a_byte _ _ _ _ _ Ho Hv' _ Hf Hs ltac:(lia)). cbn [fst snd].
      split; [reflexivity|]. split; [reflexivity|].
      split; [intros _; eexists; reflexivity|].
      intros c Hc Hin. assert (c = content) by congruence. subst c.
      split; [|reflexivity]. apply try_not_a_byte with (content := content); lia || assumption.
  - rewrite (call_file_inaccessible _ _ _ _ _ Ho Hv' _ Hf). cbn [fst snd].
    split; [reflexivity|]. split; [reflexivity|].
    split; [intros _; eexists; reflexivity|]. intros c Hc. discriminate Hc.
  - rewrite (call_file_absent _ _ _ _ _ Ho Hv' Hf). cbn [fst snd].
    split; [reflexivity|]. split; [reflexivity|].
    split; [intros _; eexists; reflexivity|]. intros c Hc. discriminate Hc.
Qed.

Lemma binary_write_value_above_byte_witness :
  binary_write 300 1000 2 "save.sav" w0
  = (Ok tt, logged w0 [EvOpen "save.sav";
                       EvPrint "Value Error: bytes must be in range(0, 256)"])
  /\ fs (snd (binary_write 300 1000 2 "save.sav" w0)) = fs w0.
Proof.
  pose proof (binary_write_value_above_byte 300 1000 2 "save.sav" w0 ltac:(lia))
    as (_ & _ & Hfs & _ & Hrun).
  split; [|exact Hfs].
  apply (Hrun (replicate 4 x00)).
  - reflexivity.
  - simpl. lia.
Defined.

(** ** Stripping strings *)

Lemma append_cons c s t : String c s +:+ t = String c (s +:+ t).
Proof. reflexivity. Qed.

Lemma append_empty_l s : EmptyString +:+ s = s.
Proof. reflexivity. Qed.

Lemma append_empty_r s : s +:+ EmptyString = s.
Proof. induction s as [|c s IH]; [reflexivity|]. now rewrite append_cons, IH. Qed.

Lemma append_assoc s t u : (s +:+ t) +:+ u = s +:+ (t +:+ u).
Proof. induction s as [|c s IH]; [reflexivity|]. now rewrite !append_cons, IH. Qed.

(** [lstrip] only takes characters of the stripped kind off the front. *)
Lemma lstrip_spec p s :
  exists pre, s = pre +:+ Str.lstrip p s /\ Str.all p pre = true.
Proof.
  induction s as [|c s (pre & E & Hpre)].
  - now exists EmptyString.
  - simpl. destruct (p c) eqn:Hc.
    + exists (String c pre). rewrite append_cons, <- E. simpl. now rewrite Hc.
    + now exists EmptyString.
Qed.

(** [rstrip] only takes characters of the stripped kind off the back. *)
Lemma rstrip_spec p s :
  exists post, s = Str.rstrip p s +:+ post /\ Str.all p post = true.
Proof.
  induction s as [|c s (post & E & Hpost)].
  - now exists EmptyString.
  - simpl. destruct (Str.rstrip p s) as [|d r] eqn:Hr.
    + rewrite append_empty_l in E. subst post.
      destruct (p c) eqn:Hc.
      * exists (String c s). simpl. now rewrite Hc.
      * exists s. now rewrite !append_cons.
    + exists post. now rewrite append_cons, <- E.
Qed.

Lemma strip_spec chars s :
  let p := match chars with
           | None => Str.isspace
           | Some cs => fun c => Str.mem c cs
           end in
  exists pre post,
    s = pre +:+ Str.strip chars s +:+ post
    /\ Str.all p pre = true /\ Str.all p post = true.
Proof.
  intros p. unfold Str.strip. fold p.
  destruct (lstrip_spec p s) as (pre & E1 & Hpre).
  destruct (rstrip_spec p (Str.lstrip p s)) as (post & E2 & Hpost).
  exists pre, post. now rewrite <- E2.
Qed.

(** When [s.startswith("& ")], the slice [s[2:]] is [s] without that prefix. *)
Lemma startswith_slice s :
  Str.startswith s "& " = true -> s = "& " +:+ Str.slice_from 2 s.
Proof.
  unfold Str.startswith. intros H.
  destruct s as [|a [|b s]]; cbn [String.prefix] in H; try discriminate.
  - destruct (Ascii.ascii_dec "&" a); discriminate.
  - destruct (Ascii.ascii_dec "&" a) as [<-|]; [|discriminate].
    destruct (Ascii.ascii_dec " " b) as [<-|]; [|discriminate].
    reflexivity.
Qed.

(** C10: the string [clean_file_path] hands to [Path] is the input without
    a front part and a back part, and nothing in between is touched.  The
    front part is, in this order, white space, at most one "& ", double
    quotes, single quotes; the back part is single quotes, double quotes,
    white space. *)
Theorem clean_file_path_trims_ends raw_path :
  exists ws1 amp dq1 sq1 sq2 dq2 ws2,
    raw_path = (ws1 +:+ amp +:+ dq1 +:+ sq1)
               +:+ Path_arg (clean_file_path raw_path)
               +:+ (sq2 +:+ dq2 +:+ ws2)
    /\ Str.all Str.isspace ws1 = true
    /\ (amp = EmptyString \/ amp = "& ")
    /\ Str.all (fun c => Str.mem c Str.dquote) dq1 = true
    /\ Str.all (fun c => Str.mem c Str.squote) sq1 = true
    /\ Str.all (fun c => Str.mem c Str.squote) sq2 = true
    /\ Str.all (fun c => Str.mem c Str.dquote) dq2 = true
    /\ Str.all Str.isspace ws2 = true.
Proof.
  unfold clean_file_path. cbn [Path_arg].
  destruct (strip_spec None raw_path) as (ws1 & ws2 & Ews & Hws1 & Hws2).
  set (stripped := Str.strip None raw_path) in *.
  assert (exists amp, stripped
            = amp +:+ (if Str.startswith stripped "& "
                       then Str.slice_from 2 stripped else stripped)
            /\ (amp = EmptyString \/ amp = "& ")) as (amp & Eamp & Hamp).
  { destruct (Str.startswith stripped "& ") eqn:Hs.
    - exists "& ". split; [now apply startswith_slice | now right].
    - exists EmptyString. split; [reflexivity | now left]. }
  set (unprefixed := if Str.startswith stripped "& "
                     then Str.slice_from 2 stripped else stripped) in *.
  destruct (strip_spec (Some Str.dquote) unprefixed) as (dq1 & dq2 & Edq & Hdq1 & Hdq2).
  set (unquoted := Str.strip (Some Str.dquote) unprefixed) in *.
  destruct (strip_spec (Some Str.squote) unquoted) as (sq1 & sq2 & Esq & Hsq1 & Hsq2).
  exists ws1, amp, dq1, sq1, sq2, dq2, ws2.
  split; [|now repeat split].
  rewrite Ews at 1. rewrite Eamp at 1. rewrite Edq at 1. rewrite Esq at 1.
  now rewrite !append_assoc.
Qed.

Example clean_file_path_dragged :
  clean_file_path ("  & '" +:+ Str.dquote +:+ "C:\saves\a b.sav" +:+ Str.dquote +:+ "'  ")
  = PathOf (Str.dquote +:+ "C:\saves\a b.sav" +:+ Str.dquote).
Proof. vm_compute. reflexivity. Qed.

Example clean_file_path_quoted :
  clean_file_path (" " +:+ Str.dquote +:+ "'/tmp/GAME 1.SAV'" +:+ Str.dquote)
  = PathOf "/tmp/GAME 1.SAV".
Proof. vm_compute. reflexivity. Qed.

(** ** The tables and the lookup of [edit_menu] *)

(** A supported pair: both lookups succeed and the byte is patched with the
    attribute's fixed value under the ceiling 255. *)
Lemma edit_apply_supported str_file_path name attr offset w :
  offset_of name attr = Some offset ->
  exists value,
    assoc ATTRIBUTE_VALUES attr = Some value
    /\ edit_apply str_file_path (game_character.new (Some name) (Some attr)) w
       = binary_write value 255 offset str_file_path w.
Proof.
  destruct name, attr; intros [= <-]; eexists; split; reflexivity.
Qed.

(** ** The menus *)

Lemma print_logged text w : print text w = (Ok tt, logged w [EvPrint text]).
Proof. reflexivity. Qed.

Lemma print_options_logged options w :
  print_options options w
  = (Ok tt, logged w (map (fun kv => EvPrint ("[" +:+ kv.1 +:+ "] " +:+ kv.2)) options)).
Proof.
  revert w. induction options as [|[key value] options IH]; intros w.
  - simpl. now rewrite logged_nil.
  - cbn [print_options map]. rewrite (bind_ok _ _ _ _ _ (print_logged _ _)), IH.
    now rewrite logged_logged.
Qed.

Lemma input_line prompt w line rest :
  stdin w = line :: rest ->
  input prompt w
  = (Ok line, World (fs w) (os_name w) rest (trace w ++ [EvInput prompt])).
Proof. intros E. unfold input. now rewrite E. Qed.

Lemma input_eof prompt w :
  stdin w = [] ->
  input prompt w
  = (Raise EOFError, World (fs w) (os_name w) [] (trace w ++ [EvInput prompt])).
Proof. intros E. unfold input. now rewrite E. Qed.

Lemma clear_screen_runs w :
  exists cmd, clear_screen w = (Ok tt, logged w [EvSystem cmd]).
Proof. unfold clear_screen. destruct (String.eqb _ _); eexists; reflexivity. Qed.



Section MenuProperties.

Variable str_of_path : Path -> string.

(** C8: when the line read by the character-selection menu is "0" once
    stripped and lowered, [main_menu] prints its farewell and raises
    [SystemExit(0)], whatever the depth it runs at; nothing was written.
    No [try] of the script encloses a menu, so the exception ends the
    interpreter, and the exit status is 0. *)
Theorem main_menu_exit fuel file_path w line rest :
  stdin w = line :: rest ->
  Str.lower (Str.strip None line) = "0" ->
  let r := main_menu str_of_path (S fuel) file_path w in
  r = (Raise (SystemExit 0),
       World (fs w) (os_name w) rest
             (trace w ++ [EvPrint "Select your Character:";
                          EvPrint "[1] Drake"; EvPrint "[2] Farely";
                          EvPrint "[0] Exit"; EvInput "> ";
                          EvPrint (Str.LF +:+ "BYE!!" +:+ Str.LF)]))
  /\ exit_status (fst r) = 0.
Proof.
  intros Hin Hchoice r. subst r. cbn [main_menu].
  rewrite (bind_ok _ _ _ _ _ (print_logged _ _)).
  rewrite (bind_ok _ _ _ _ _ (print_options_logged _ _)).
  erewrite bind_ok by (apply input_line; exact Hin).
  rewrite Hchoice. cbn [String.eqb Ascii.eqb Bool.eqb].
  erewrite bind_raise by reflexivity.
  cbn [fst exit_status logged fs os_name stdin trace map].
  now rewrite <- !app_assoc.
Qed.

(** The same choice made at the first menu of a run of the script. *)
Lemma main_exit fuel w raw_path line rest :
  stdin w = raw_path :: line :: rest ->
  Str.lower (Str.strip None line) = "0" ->
  fst (main str_of_path (S (S fuel)) w) = Raise (SystemExit 0)
  /\ fs (snd (main str_of_path (S (S fuel)) w)) = fs w.
Proof.
  intros Hin Hchoice. cbn [main main_menu].
  destruct (clear_screen_runs w) as (cmd1 & Hcmd1).
  rewrite (bind_ok _ _ _ _ _ Hcmd1).
  rewrite (bind_ok _ _ _ _ _ (print_logged _ _)).
  erewrite bind_ok by (apply input_line; exact Hin).
  match goal with |- context [bind clear_screen _ ?w1] =>
    destruct (clear_screen_runs w1) as (cmd2 & Hcmd2) end.
  rewrite (bind_ok _ _ _ _ _ Hcmd2).
  rewrite (bind_ok _ _ _ _ _ (print_logged _ _)).
  rewrite (bind_ok _ _ _ _ _ (print_options_logged _ _)).
  erewrite bind_ok by (apply input_line; reflexivity).
  rewrite Hchoice. cbn [String.eqb Ascii.eqb Bool.eqb].
  erewrite bind_raise by reflexivity. now split.
Qed.


End MenuProperties.




Lemma main_menu_exit_witness :
  main_menu Path_arg 1 (PathOf "save.sav") (with_stdin [" 0 "] w0)
  = (Raise (SystemExit 0),
     World (fs w0) "posix" []
           [EvPrint "Select your Character:";
            EvPrint "[1] Drake"; EvPrint "[2] Farely"; EvPrint "[0] Exit";
            EvInput "> "; EvPrint (Str.LF +:+ "BYE!!" +:+ Str.LF)]).
Proof.
  apply (main_menu_exit Path_arg 0 (PathOf "save.sav") (with_stdin [" 0 "] w0) " 0 " []).
  - reflexivity.
  - reflexivity.
Defined.

(** Exit chosen after a detour: Drake, back to the character menu, exit.
    The [SystemExit] raised two menus deep is the outcome of the run. *)
Example main_exit_from_nested_menu :
  let r := main Path_arg 10 (with_stdin ["'save.sav'"; "1"; "0"; "0"] w0) in
  fst r = Raise (SystemExit 0) /\ exit_status (fst r) = 0 /\ fs (snd r) = fs w0.
Proof. vm_compute. auto. Qed.

(** A whole session: Drake's health on a file too short for offset 340 is
    refused, then exit. *)
Example main_session_short_file :
  let r := main Path_arg 10 (with_stdin ["save.sav"; "1"; "1"; "0"; "0"] w0) in
  fst r = Raise (SystemExit 0)
  /\ EvPrint "Value Error: Offset:340 is beyound end of file [size]:4 bytes"
     ∈ trace (snd r)
  /\ fs (snd r) = fs w0.
Proof. vm_compute. repeat split. repeat constructor. Qed.

(** * Further properties *)

(** ** The file system after [binary_write] *)

Lemma patchable_spec value max_value offset content :
  patchable value max_value offset content = true
  <-> 0 <= offset < Z.of_nat (length content)
      /\ 0 <= value <= max_value /\ value <= 255.
Proof.
  unfold patchable. rewrite !andb_true_iff, !Z.leb_le, Z.ltb_lt. lia.
Qed.

Lemma byte_of_int_to_N b value :
  Byte.to_N b = Z.to_N value -> byte_of_int value = b.
Proof.
  intros E. unfold byte_of_int. now rewrite <- E, Byte.of_to_N.
Qed.

Lemma alter_found (f : node -> node) (fs0 : gmap string node) path n :
  fs0 !! path = Some n -> alter f path fs0 = <[path := f n]> fs0.
Proof.
  intros Hf. apply map_eq. intros q.
  rewrite lookup_alter, lookup_insert. case_decide; [|reflexivity].
  now rewrite Hf.
Qed.

Lemma patched_fs_same value max_value offset path fs0 :
  (forall c, fs0 !! path = Some (RegularFile c) ->
             patchable value max_value offset c = false) ->
  patched_fs value max_value offset path fs0 = fs0.
Proof.
  intros H. apply alter_id. intros [c|err] Hn; [|reflexivity].
  simpl. now rewrite (H c Hn).
Qed.

(** What [binary_write] does to the file system depends on the file system
    alone, and is [patched_fs]. *)
Lemma binary_write_fs value max_value offset file_path w :
  fs (snd (binary_write value max_value offset file_path w))
  = patched_fs value max_value offset file_path (fs w).
Proof.
  destruct (fs w !! file_path) as [[content|err]|] eqn:Hf.
  - destruct (patchable value max_value offset content) eqn:Hp.
    + unfold patched_fs. rewrite (alter_found _ _ _ _ Hf). simpl. rewrite Hp.
      apply patchable_spec in Hp as (Ho & Hv & Hb).
      destruct (try_writes value max_value offset file_path w ltac:(lia) Hv
                  content Hf ltac:(lia) Hb) as (b & Eb & E).
      rewrite (binary_write_completes _ _ _ _ _ _ E). cbn [snd fs].
      now rewrite (byte_of_int_to_N _ _ Eb).
    + rewrite patched_fs_same
        by (intros c Hc; rewrite Hf in Hc; injection Hc as <-; exact Hp).
      assert (Hp' : ~ (0 <= offset < Z.of_nat (length content)
                       /\ 0 <= value <= max_value /\ value <= 255)).
      { intros H%patchable_spec. congruence. }
      destruct (Z.lt_ge_cases offset 0) as [Ho|Ho];
        [now rewrite call_offset_negative|].
      destruct (Z.lt_ge_cases value 0) as [Hv|Hv];
        [rewrite call_value_out_of_range by lia; reflexivity|].
      destruct (Z.lt_ge_cases max_value value) as [Hm|Hm];
        [rewrite call_value_out_of_range by lia; reflexivity|].
      destruct (Z.le_gt_cases (Z.of_nat (length content)) offset) as [Hs|Hs].
      * now rewrite (call_offset_beyond value max_value offset file_path w Ho
                       ltac:(lia) _ Hf Hs).
      * now rewrite (call_not_a_byte value max_value offset file_path w Ho
                       ltac:(lia) _ Hf Hs ltac:(lia)).
  - rewrite patched_fs_same by (intros c Hc; rewrite Hf in Hc; discriminate Hc).
    destruct (Z.lt_ge_cases offset 0) as [Ho|Ho];
      [now rewrite call_offset_negative|].
    destruct (Z.lt_ge_cases value 0) as [Hv|Hv];
      [rewrite call_value_out_of_range by lia; reflexivity|].
    destruct (Z.lt_ge_cases max_value value) as [Hm|Hm];
      [rewrite call_value_out_of_range by lia; reflexivity|].
    now rewrite (call_file_inaccessible value max_value offset file_path w Ho
                   ltac:(lia) _ Hf).
  - rewrite patched_fs_same by (intros c Hc; rewrite Hf in Hc; discriminate Hc).
    destruct (Z.lt_ge_cases offset 0) as [Ho|Ho];
      [now rewrite call_offset_negative|].
    destruct (Z.lt_ge_cases value 0) as [Hv|Hv];
      [rewrite call_value_out_of_range by lia; reflexivity|].
    destruct (Z.lt_ge_cases max_value value) as [Hm|Hm];
      [rewrite call_value_out_of_range by lia; reflexivity|].
    now rewrite (call_file_absent value max_value offset file_path w Ho
                   ltac:(lia) Hf).
Qed.

Lemma touched_refl p allowed fs0 : touched p allowed fs0 fs0.
Proof.
  intros q. destruct (fs0 !! q) as [[c|err]|]; [|reflexivity..].
  exists c. repeat split. now left.
Qed.

Lemma touched_trans p allowed fs0 fs1 fs2 :
  touched p allowed fs0 fs1 -> touched p allowed fs1 fs2 ->
  touched p allowed fs0 fs2.
Proof.
  intros H01 H12 q. specialize (H01 q). specialize (H12 q).
  destruct (fs0 !! q) as [[c|err]|].
  - destruct H01 as (c1 & E1 & L1 & B1). rewrite E1 in H12.
    destruct H12 as (c2 & E2 & L2 & B2).
    exists c2. split; [exact E2|]. split; [congruence|].
    intros i. destruct (B2 i) as [Same|Changed]; [|now right].
    rewrite Same. apply B1.
  - now rewrite H01 in H12.
  - now rewrite H01 in H12.
Qed.

Lemma touched_weaken p (allowed allowed' : nat -> byte -> Prop) fs0 fs1 :
  (forall i b, allowed i b -> allowed' i b) ->
  touched p allowed fs0 fs1 -> touched p allowed' fs0 fs1.
Proof.
  intros Hsub H q. specialize (H q).
  destruct (fs0 !! q) as [[c|err]|]; [|exact H..].
  destruct H as (c' & E & L & B). exists c'. split; [exact E|]. split; [exact L|].
  intros i. destruct (B i) as [Same|(-> & b & Eb & Hb)]; [now left|].
  right. split; [reflexivity|]. exists b. auto.
Qed.

Lemma patched_fs_touched value max_value offset path fs0 :
  touched path
    (fun i b => Z.of_nat i = offset /\ Byte.to_N b = Z.to_N value)
    fs0 (patched_fs value max_value offset path fs0).
Proof.
  intros q. unfold patched_fs. rewrite lookup_alter.
  destruct (decide (path = q)) as [<-|Hq].
  2: { destruct (fs0 !! q) as [[c|err]|]; [|reflexivity..].
       exists c. repeat split. now left. }
  destruct (fs0 !! path) as [[c|err]|]; [|reflexivity..].
  simpl. destruct (patchable value max_value offset c) eqn:Hp.
  2: { exists c. repeat split. now left. }
  apply patchable_spec in Hp as (Ho & Hv & Hb).
  assert (Eb : Byte.to_N (byte_of_int value) = Z.to_N value).
  { unfold byte_of_int. destruct (Byte.of_N (Z.to_N value)) as [b|] eqn:E.
    - now apply Byte.to_of_N.
    - apply Byte.of_N_None_iff in E. lia. }
  eexists. split; [reflexivity|]. split; [apply length_insert|].
  intros i. destruct (decide (i = Z.to_nat offset)) as [->|Hi].
  - right. split; [reflexivity|]. exists (byte_of_int value).
    split; [apply list_lookup_insert_eq; lia|]. split; [lia | exact Eb].
  - left. now apply list_lookup_insert_ne.
Qed.



(** X2: whatever its arguments and whatever it finds, [binary_write] never
    creates, removes or resizes a file, never changes a path other than its
    target, and changes at most the byte at [offset] of the target, which
    then holds [value]. *)
Theorem binary_write_touches_one_byte value max_value offset file_path w :
  touched file_path
    (fun i b => Z.of_nat i = offset /\ Byte.to_N b = Z.to_N value)
    (fs w) (fs (snd (binary_write value max_value offset file_path w))).
Proof. rewrite binary_write_fs. apply patched_fs_touched. Qed.

(** X3: the "Wrote value" line is the report of a call exactly when the
    target is a regular file longer than [offset], the offset is not
    negative, and the value lies in [0, max_value] and is at most 255. *)
Theorem binary_write_wrote_iff value max_value offset file_path w :
  trace (snd (binary_write value max_value offset file_path w))
  = trace w ++ [EvOpen file_path; EvPrint (wrote_line value offset)]
  <-> exists content,
        fs w !! file_path = Some (RegularFile content)
        /\ 0 <= offset < Z.of_nat (length content)
        /\ 0 <= value <= max_value
        /\ value <= 255.
Proof.
  split.
  - intros Htrace.
    destruct (Z.lt_ge_cases offset 0) as [Ho|Ho].
    { rewrite call_offset_negative in Htrace by exact Ho.
      apply app_inv_head in Htrace. discriminate. }
    destruct (Z.lt_ge_cases value 0) as [Hv|Hv];
      [|destruct (Z.lt_ge_cases max_value value) as [Hm|Hm]].
    1,2: rewrite call_value_out_of_range in Htrace by lia;
      apply app_inv_head in Htrace; discriminate.
    assert (Hv' : 0 <= value <= max_value) by lia.
    destruct (fs w !! file_path) as [[content|err]|] eqn:Hf.
    + destruct (Z.le_gt_cases (Z.of_nat (length content)) offset) as [Hs|Hs];
        [|destruct (Z.lt_ge_cases 255 value) as [Hb|Hb]].
      * rewrite (call_offset_beyond _ _ _ _ _ Ho Hv' _ Hf Hs) in Htrace.
        apply app_inv_head in Htrace. injection Htrace. discriminate.
      * rewrite (call_not_a_byte _ _ _ _ _ Ho Hv' _ Hf Hs Hb) in Htrace.
        apply app_inv_head in Htrace. injection Htrace. discriminate.
      * exists content. auto with lia.
    + rewrite (call_file_inaccessible _ _ _ _ _ Ho Hv' _ Hf) in Htrace.
      apply app_inv_head in Htrace. injection Htrace. discriminate.
    + rewrite (call_file_absent _ _ _ _ _ Ho Hv' Hf) in Htrace.
      apply app_inv_head in Htrace.
      destruct (embedded_null file_path); injection Htrace; discriminate.
  - intros (content & Hf & Ho & Hv & Hb).
    destruct (try_writes value max_value offset file_path w ltac:(lia) Hv
                content Hf ltac:(lia) Hb) as (b & _ & E).
    now rewrite (binary_write_completes _ _ _ _ _ _ E).
Qed.

Lemma patchable_length value max_value offset c c' :
  length c' = length c ->
  patchable value max_value offset c' = patchable value max_value offset c.
Proof. intros E. unfold patchable. now rewrite E. Qed.

Lemma patched_node_idem value max_value offset n :
  patched_node value max_value offset (patched_node value max_value offset n)
  = patched_node value max_value offset n.
Proof.
  destruct n as [c|err]; [|reflexivity]. simpl.
  destruct (patchable value max_value offset c) eqn:Hp; simpl.
  - rewrite (patchable_length value max_value offset c
               (<[Z.to_nat offset := byte_of_int value]> c)) by apply length_insert.
    now rewrite Hp, list_insert_insert_eq.
  - now rewrite Hp.
Qed.

Lemma patched_node_commute v1 m1 o1 v2 m2 o2 n :
  o1 <> o2 ->
  patched_node v1 m1 o1 (patched_node v2 m2 o2 n)
  = patched_node v2 m2 o2 (patched_node v1 m1 o1 n).
Proof.
  intros Hne. destruct n as [c|err]; [|reflexivity]. simpl.
  destruct (patchable v1 m1 o1 c) eqn:H1, (patchable v2 m2 o2 c) eqn:H2; simpl;
    rewrite ?(patchable_length v1 m1 o1 c (<[Z.to_nat o2 := byte_of_int v2]> c)),
            ?(patchable_length v2 m2 o2 c (<[Z.to_nat o1 := byte_of_int v1]> c))
      by apply length_insert;
    rewrite ?H1, ?H2; try reflexivity.
  apply patchable_spec in H1 as (? & _). apply patchable_spec in H2 as (? & _).
  f_equal. apply list_insert_insert_ne. lia.
Qed.

(** X4: patching is idempotent on the file system: a second call with the
    same arguments leaves every file as the first call left it, whether the
    first call wrote or failed. *)
Theorem binary_write_idempotent value max_value offset file_path w :
  let once := snd (binary_write value max_value offset file_path w) in
  fs (snd (binary_write value max_value offset file_path once)) = fs once.
Proof.
  intros once. subst once. rewrite !binary_write_fs. unfold patched_fs.
  rewrite alter_alter_eq. apply alter_ext. intros n _.
  apply patched_node_idem.
Qed.

(** X5: two calls that aim at different paths, or at different offsets,
    leave the same file system in either order. *)
Theorem binary_write_commute v1 m1 o1 p1 v2 m2 o2 p2 w :
  p1 <> p2 \/ o1 <> o2 ->
  fs (snd (binary_write v2 m2 o2 p2 (snd (binary_write v1 m1 o1 p1 w))))
  = fs (snd (binary_write v1 m1 o1 p1 (snd (binary_write v2 m2 o2 p2 w)))).
Proof.
  intros Hne. rewrite !binary_write_fs. unfold patched_fs.
  destruct (decide (p1 = p2)) as [<-|Hp].
  - destruct Hne as [Hne|Hne]; [congruence|].
    rewrite !alter_alter_eq. apply alter_ext. intros n _.
    symmetry. now apply patched_node_commute.
  - now apply alter_alter_ne.
Qed.

Lemma binary_write_commute_witness :
  fs (snd (binary_write 7 255 1 "save.sav" (snd (binary_write 255 255 2 "save.sav" w0))))
  = fs (snd (binary_write 255 255 2 "save.sav" (snd (binary_write 7 255 1 "save.sav" w0))))
  /\ file_bytes (snd (binary_write 7 255 1 "save.sav"
                        (snd (binary_write 255 255 2 "save.sav" w0)))) "save.sav"
     = Some [x00; x07; xff; x00].
Proof.
  split.
  - symmetry. apply (binary_write_commute 7 255 1 "save.sav" 255 255 2 "save.sav" w0).
    right. lia.
  - vm_compute. reflexivity.
Defined.

(** X6: for a pair the Offset Table has, on a regular file longer than the
    pair's offset, the lookup-and-write of [edit_menu] returns normally and
    puts the attribute's table value at the table offset, changing nothing
    else in that file. *)
Theorem edit_apply_patches str_file_path name attr offset value w content :
  offset_of name attr = Some offset ->
  assoc ATTRIBUTE_VALUES attr = Some value ->
  fs w !! str_file_path = Some (RegularFile content) ->
  offset < Z.of_nat (length content) ->
  let r := edit_apply str_file_path (game_character.new (Some name) (Some attr)) w in
  exists b,
    Byte.to_N b = Z.to_N value
    /\ fst r = Ok tt
    /\ file_bytes (snd r) str_file_path
       = Some (<[Z.to_nat offset := b]> content).
Proof.
  intros Hoff Hval Hf Hlen r.
  destruct (edit_apply_supported str_file_path name attr offset w Hoff)
    as (value' & Hval' & E).
  assert (value' = value) by congruence. subst value' r. rewrite E.
  assert (0 <= offset /\ 0 <= value <= 255) as (Ho & Hv).
  { destruct name, attr; simpl in Hoff, Hval;
      injection Hval as <-; try injection Hoff as <-; try discriminate; lia. }
  destruct (try_writes value 255 offset str_file_path w Ho Hv content Hf Hlen
              ltac:(lia)) as (b & Eb & Etry).
  rewrite (binary_write_completes _ _ _ _ _ _ Etry).
  exists b. split; [exact Eb|]. split; [reflexivity|].
  unfold file_bytes. cbn [snd fs]. now rewrite lookup_insert_eq.
Qed.

Lemma edit_apply_patches_witness :
  let w := World {[ "save.sav" := RegularFile (replicate 400 x00) ]} "posix" [] [] in
  exists b,
    Byte.to_N b = Z.to_N 255
    /\ fst (edit_apply "save.sav" (game_character.new (Some Drake) (Some health)) w)
       = Ok tt
    /\ file_bytes
         (snd (edit_apply "save.sav" (game_character.new (Some Drake) (Some health)) w))
         "save.sav"
       = Some (<[Z.to_nat 340 := b]> (replicate 400 x00)).
Proof.
  intros w.
  apply (edit_apply_patches "save.sav" Drake health 340 255 w (replicate 400 x00)).
  - reflexivity.
  - reflexivity.
  - reflexivity.
  - simpl. lia.
Defined.

(** ** Runs of the menus *)

(** A call one level up that has read one more line, and that ends as the
    call it makes ends, ends in the same way. *)
Lemma run_ends_step {A B} p fuel w w1 line
    (r : result A * world) (r1 : result B * world) :
  stdin w = line :: stdin w1 ->
  os_name w1 = os_name w ->
  touched p menu_bytes (fs w) (fs w1) ->
  run_ends p fuel w1 r1 ->
  (forall e w', r1 = (Raise e, w') -> r = (Raise e, w')) ->
  run_ends p (S fuel) w r.
Proof.
  intros Hin Hos Hfs (e & w' & consumed & E & Hin1 & Hos1 & Hfs1 & Hend) Hsame.
  exists e, w', (line :: consumed).
  split; [now apply Hsame|].
  split; [now rewrite Hin, Hin1|].
  split; [congruence|].
  split; [now apply touched_trans with (fs w1)|].
  destruct Hend as [(-> & Hlen & l & Hlast & Hl) | [(-> & Hnil & Hlen) | (-> & Hlen)]].
  - left. split; [reflexivity|]. split; [simpl; lia|].
    exists l. split; [|exact Hl]. rewrite last_cons. now rewrite Hlast.
  - right. left. split; [reflexivity|]. split; [exact Hnil | simpl; lia].
  - right. right. split; [reflexivity | simpl; lia].
Qed.

Lemma menu_byte_written i b offset :
  offset = 340 \/ offset = 99999 ->
  Z.of_nat i = offset /\ Byte.to_N b = Z.to_N 255 ->
  menu_bytes i b.
Proof.
  intros Ho (Hi & Hb). split; [lia|].
  pose proof (Byte.of_to_N b) as E. rewrite Hb in E.
  change (Byte.of_N (Z.to_N 255)) with (Some xff) in E. congruence.
Qed.

(** With [health] selected, the lookup and the write return normally, read
    nothing, and touch the file system at a menu byte at most. *)
Lemma edit_apply_health_run str_file_path name w :
  exists w',
    edit_apply str_file_path (game_character.new (Some name) (Some health)) w
    = (Ok tt, w')
    /\ stdin w' = stdin w
    /\ os_name w' = os_name w
    /\ touched str_file_path menu_bytes (fs w) (fs w').
Proof.
  set (offset := match name with Drake => 340 | Farley => 99999 end).
  destruct (edit_apply_supported str_file_path name health offset w
              ltac:(now destruct name)) as (value & Hvalue & E).
  injection Hvalue as <-.
  pose proof (binary_write_fs 255 255 offset str_file_path w) as Hfs.
  destruct (binary_write_outcome 255 255 offset str_file_path w)
    as (opened & text & fs' & Eout & _).
  rewrite E, Eout. rewrite Eout in Hfs. cbn [snd fs] in Hfs.
  eexists. split; [reflexivity|]. cbn [fs os_name stdin].
  split; [reflexivity|]. split; [reflexivity|].
  rewrite Hfs. eapply touched_weaken; [|apply patched_fs_touched].
  intros i b. apply menu_byte_written. subst offset. destruct name; auto.
Qed.

Section Runs.

Variable str_of_path : Path -> string.
Variable file_path : Path.

Lemma menus_run_ends fuel :
  (forall w,
      run_ends (str_of_path file_path) fuel w
        (main_menu str_of_path fuel file_path w))
  /\ (forall character w,
        is_Some (game_character.name character) ->
        run_ends (str_of_path file_path) fuel w
          (edit_menu str_of_path fuel character file_path w)).
Proof.
  induction fuel as [|fuel [IHmain IHedit]].
  { split; intros; exists RecursionError, w, [];
      (split; [reflexivity|]); (split; [reflexivity|]); (split; [reflexivity|]);
      (split; [apply touched_refl|]); right; right; now split. }
  assert (Heof : forall A (r : result A * world) w prompt evs,
             stdin w = [] ->
             r = (Raise EOFError,
                  World (fs w) (os_name w) [] (trace (logged w evs) ++ [EvInput prompt])) ->
             run_ends (str_of_path file_path) (S fuel) w r).
  { intros A r w prompt evs Hin ->. eexists EOFError, _, [].
    split; [reflexivity|]. split; [now rewrite Hin|]. split; [reflexivity|].
    split; [apply touched_refl|]. right. left. split; [reflexivity|].
    split; [reflexivity | simpl; lia]. }
  split.
  - intros w. cbn [main_menu].
    rewrite (bind_ok _ _ _ _ _ (print_logged _ _)).
    rewrite (bind_ok _ _ _ _ _ (print_options_logged _ _)).
    destruct (stdin w) as [|line rest] eqn:Hin.
    { erewrite bind_raise by (apply input_eof; exact Hin).
      rewrite logged_logged. eapply Heof; [exact Hin | reflexivity]. }
    erewrite bind_ok by (apply input_line; exact Hin).
    match goal with |- context [bind _ _ ?w3] => set (w3' := w3) end.
    destruct (String.eqb (Str.lower (Str.strip None line)) "0") eqn:H0;
      [|destruct (String.eqb (Str.lower (Str.strip None line)) "1");
        [|destruct (String.eqb (Str.lower (Str.strip None line)) "2")]].
    + apply String.eqb_eq in H0.
      erewrite bind_raise by reflexivity.
      eexists (SystemExit 0), _, [line].
      split; [reflexivity|]. split; [exact Hin|]. split; [reflexivity|].
      split; [apply touched_refl|]. left. split; [reflexivity|].
      split; [simpl; lia|]. exists line. now split.
    + erewrite bind_ok by reflexivity.
      match goal with |- context [bind (edit_menu _ _ ?c _) _ _] =>
        apply (run_ends_step _ _ _ w3' line _
                 (edit_menu str_of_path fuel c file_path w3'));
          [exact Hin | reflexivity | apply touched_refl | |]
      end.
      * apply IHedit. now eexists.
      * intros e w' E. now apply bind_raise.
    + erewrite bind_ok by reflexivity.
      match goal with |- context [bind (edit_menu _ _ ?c _) _ _] =>
        apply (run_ends_step _ _ _ w3' line _
                 (edit_menu str_of_path fuel c file_path w3'));
          [exact Hin | reflexivity | apply touched_refl | |]
      end.
      * apply IHedit. now eexists.
      * intros e w' E. now apply bind_raise.
    + match goal with |- context [@bind _ _ (print ?t) _] =>
        apply (run_ends_step _ _ _ (logged w3' [EvPrint t]) line _
                 (main_menu str_of_path fuel file_path (logged w3' [EvPrint t])));
          [exact Hin | reflexivity | apply touched_refl | apply IHmain |]
      end.
      intros e w' E. apply bind_raise.
      rewrite (bind_ok _ _ _ _ _ (print_logged _ _)). now apply bind_raise.
  - intros character w Hname. cbn [edit_menu].
    rewrite (bind_ok _ _ _ _ _ (print_logged _ _)).
    rewrite (bind_ok _ _ _ _ _ (print_options_logged _ _)).
    destruct (stdin w) as [|line rest] eqn:Hin.
    { erewrite bind_raise by (apply input_eof; exact Hin).
      rewrite logged_logged. eapply Heof; [exact Hin | reflexivity]. }
    erewrite bind_ok by (apply input_line; exact Hin).
    match goal with |- context [bind _ _ ?w3] => set (w3' := w3) end.
    destruct (String.eqb (Str.lower (Str.strip None line)) "0");
      [|destruct (String.eqb (Str.lower (Str.strip None line)) "1")].
    + destruct (clear_screen_runs w3') as (cmd & Hcmd).
      apply (run_ends_step _ _ _ (logged w3' [EvSystem cmd]) line _
               (main_menu str_of_path fuel file_path (logged w3' [EvSystem cmd])));
        [exact Hin | reflexivity | apply touched_refl | apply IHmain |].
      intros e w' E. apply bind_raise.
      rewrite (bind_ok _ _ _ _ _ Hcmd). now apply bind_raise.
    + erewrite bind_ok by reflexivity.
      destruct Hname as [name Hname].
      destruct character as [cname cattr]. cbn in Hname. subst cname.
      unfold game_character.set_attributes. cbn [game_character.name].
      destruct (edit_apply_health_run (str_of_path file_path) name w3')
        as (w4 & Happly & Hin4 & Hos4 & Hfs4).
      rewrite (bind_ok _ _ _ _ _ Happly).
      match goal with |- context [edit_menu _ _ ?c _ w4] =>
        apply (run_ends_step _ _ _ w4 line _
                 (edit_menu str_of_path fuel c file_path w4));
          [rewrite Hin4; exact Hin | rewrite Hos4; reflexivity | exact Hfs4 | |]
      end.
      * apply IHedit. now eexists.
      * auto.
    + apply (run_ends_step _ _ _ w3' line _
               (edit_menu str_of_path fuel character file_path w3'));
        [exact Hin | reflexivity | apply touched_refl | apply IHedit, Hname |].
      intros e w' E. now apply bind_raise.
Qed.

End Runs.

(** ** Whole runs of the script *)

Section Script.

Variable str_of_path : Path -> string.

(** The path a run works on: the first line of standard input, cleaned. *)
Let target (w : world) : string :=
  str_of_path (clean_file_path (default EmptyString (head (stdin w)))).

Lemma main_run_ends fuel w :
  run_ends (target w) fuel w (main str_of_path fuel w).
Proof.
  destruct fuel as [|fuel].
  { exists RecursionError, w, [].
    split; [reflexivity|]. split; [reflexivity|]. split; [reflexivity|].
    split; [apply touched_refl|]. right. right. now split. }
  cbn [main].
  destruct (clear_screen_runs w) as (cmd1 & Hcmd1).
  rewrite (bind_ok _ _ _ _ _ Hcmd1).
  rewrite (bind_ok _ _ _ _ _ (print_logged _ _)).
  destruct (stdin w) as [|raw_path rest] eqn:Hin.
  { erewrite bind_raise by (apply input_eof; exact Hin).
    eexists EOFError, _, [].
    split; [reflexivity|]. split; [exact Hin|]. split; [reflexivity|].
    split; [apply touched_refl|]. right. left. split; [reflexivity|].
    split; [reflexivity | simpl; lia]. }
  erewrite bind_ok by (apply input_line; exact Hin).
  match goal with |- context [bind clear_screen _ ?w1] =>
    destruct (clear_screen_runs w1) as (cmd2 & Hcmd2);
    apply (run_ends_step _ _ _ (logged w1 [EvSystem cmd2]) raw_path _
             (main_menu str_of_path fuel (clean_file_path raw_path)
                (logged w1 [EvSystem cmd2])));
      [exact Hin | reflexivity | apply touched_refl | |]
  end.
  - subst target. cbn beta. rewrite Hin. cbn [head default].
    apply menus_run_ends.
  - intros e w' E. now rewrite (bind_ok _ _ _ _ _ Hcmd2).
Qed.

(** X7: every run of the script ends by an exception; it never returns.
    The exception is [SystemExit(0)], and then the last line read was a
    "0"; or [EOFError], and then standard input is used up; or
    [RecursionError].  No other exception leaves the script. *)
Theorem main_outcomes fuel w :
  exists e w' consumed,
    main str_of_path fuel w = (Raise e, w')
    /\ stdin w = consumed ++ stdin w'
    /\ ((e = SystemExit 0
         /\ exists line, last consumed = Some line /\ choice_of line = "0")
        \/ (e = EOFError /\ stdin w' = [])
        \/ e = RecursionError).
Proof.
  destruct (main_run_ends fuel w)
    as (e & w' & consumed & E & Hin & _ & _ & Hend).
  exists e, w', consumed. split; [exact E|]. split; [exact Hin|].
  destruct Hend as [(He & _ & Hlast) | [(He & Hnil & _) | (He & _)]]; auto.
Qed.

(** X8: whatever is typed, a run of the script creates, removes and
    resizes no file, and the only bytes it can change are those at offsets
    340 and 99999 of the file named by its cleaned first line, which it can
    only set to 0xff. *)
Theorem main_footprint fuel w :
  touched (str_of_path (clean_file_path (default EmptyString (head (stdin w)))))
    menu_bytes (fs w) (fs (snd (main str_of_path fuel w))).
Proof.
  destruct (main_run_ends fuel w) as (e & w' & consumed & E & _ & _ & Hfs & _).
  rewrite E. exact Hfs.
Qed.

(** *** One menu, one answer *)

Lemma prompt_answered {A} header options (k : string -> py A) w line rest :
  stdin w = line :: rest ->
  bind (print header)
    (fun _ => bind (print_options options) (fun _ => bind (input "> ") k)) w
  = k line
      (answered w rest
         (EvPrint header
          :: map (fun kv => EvPrint ("[" +:+ kv.1 +:+ "] " +:+ kv.2)) options
          ++ [EvInput "> "])).
Proof.
  intros Hin.
  rewrite (bind_ok _ _ _ _ _ (print_logged _ _)).
  rewrite (bind_ok _ _ _ _ _ (print_options_logged _ _)).
  erewrite bind_ok by (apply input_line; exact Hin).
  unfold answered, logged. cbn [fs os_name stdin trace].
  now rewrite <- !app_assoc.
Qed.

Lemma choice_is line key :
  choice_of line = key -> String.eqb (Str.lower (Str.strip None line)) key = true.
Proof. intros <-. apply String.eqb_refl. Qed.

Lemma choice_is_not line key :
  choice_of line <> key -> String.eqb (Str.lower (Str.strip None line)) key = false.
Proof. intros H. now apply String.eqb_neq. Qed.

Lemma clear_screen_logged w :
  clear_screen w = (Ok tt, logged w [EvSystem (clear_command w)]).
Proof.
  unfold clear_screen, clear_command. now destruct (String.eqb _ _).
Qed.

Section Steps.

Variables (fuel : nat) (file_path : Path) (w : world).
Variables (line : string) (rest : list string).
Hypothesis Hin : stdin w = line :: rest.

Lemma main_menu_zero :
  choice_of line = "0" ->
  main_menu str_of_path (S fuel) file_path w
  = (Raise (SystemExit 0),
     answered w rest (main_menu_shown ++ [EvPrint (Str.LF +:+ "BYE!!" +:+ Str.LF)])).
Proof.
  intros H0. cbn [main_menu]. rewrite (prompt_answered _ _ _ _ _ _ Hin).
  rewrite (choice_is _ _ H0). erewrite bind_raise by reflexivity.
  unfold answered, logged. cbn [fs os_name stdin trace].
  now rewrite <- !app_assoc.
Qed.

Lemma main_menu_picks name e w' :
  choice_of line = character_key name ->
  edit_menu str_of_path fuel (game_character.new (Some name) None) file_path
    (answered w rest main_menu_shown) = (Raise e, w') ->
  main_menu str_of_path (S fuel) file_path w = (Raise e, w').
Proof.
  intros Hkey E. cbn [main_menu]. rewrite (prompt_answered _ _ _ _ _ _ Hin).
  destruct name; cbn [character_key] in Hkey.
  - rewrite (choice_is_not line "0") by (rewrite Hkey; discriminate).
    rewrite (choice_is _ _ Hkey).
    erewrite bind_ok by reflexivity. now apply bind_raise.
  - rewrite (choice_is_not line "0") by (rewrite Hkey; discriminate).
    rewrite (choice_is_not line "1") by (rewrite Hkey; discriminate).
    rewrite (choice_is _ _ Hkey).
    erewrite bind_ok by reflexivity. now apply bind_raise.
Qed.

Lemma main_menu_other e w' :
  choice_of line <> "0" -> choice_of line <> "1" -> choice_of line <> "2" ->
  main_menu str_of_path fuel file_path
    (answered w rest
       (main_menu_shown ++ [EvPrint (Str.LF +:+ "Selection not found" +:+ Str.LF)]))
  = (Raise e, w') ->
  main_menu str_of_path (S fuel) file_path w = (Raise e, w').
Proof.
  intros H0 H1 H2 E. cbn [main_menu]. rewrite (prompt_answered _ _ _ _ _ _ Hin).
  rewrite (choice_is_not _ _ H0), (choice_is_not _ _ H1), (choice_is_not _ _ H2).
  apply bind_raise. rewrite (bind_ok _ _ _ _ _ (print_logged _ _)).
  apply bind_raise.
  unfold answered, logged in *. cbn [fs os_name stdin trace] in *.
  now rewrite <- app_assoc.
Qed.

Variable character : game_character.t.

Lemma edit_menu_zero e w' :
  choice_of line = "0" ->
  main_menu str_of_path fuel file_path
    (answered w rest (edit_menu_shown ++ [EvSystem (clear_command w)]))
  = (Raise e, w') ->
  edit_menu str_of_path (S fuel) character file_path w = (Raise e, w').
Proof.
  intros H0 E. cbn [edit_menu]. rewrite (prompt_answered _ _ _ _ _ _ Hin).
  rewrite (choice_is _ _ H0).
  apply bind_raise. rewrite (bind_ok _ _ _ _ _ (clear_screen_logged _)).
  apply bind_raise.
  unfold answered, logged, clear_command in *. cbn [fs os_name stdin trace] in *.
  now rewrite <- app_assoc.
Qed.

Lemma edit_menu_one name :
  choice_of line = "1" ->
  game_character.name character = Some name ->
  edit_menu str_of_path (S fuel) character file_path w
  = edit_menu str_of_path fuel (game_character.new (Some name) (Some health))
      file_path
      (snd (binary_write 255 255 (health_offset name) (str_of_path file_path)
              (answered w rest edit_menu_shown))).
Proof.
  intros H1 Hname. cbn [edit_menu]. rewrite (prompt_answered _ _ _ _ _ _ Hin).
  rewrite (choice_is_not line "0") by (rewrite H1; discriminate).
  rewrite (choice_is _ _ H1).
  erewrite bind_ok by reflexivity.
  unfold game_character.set_attributes. rewrite Hname.
  destruct (edit_apply_supported (str_of_path file_path) name health
              (health_offset name) (answered w rest edit_menu_shown)
              ltac:(now destruct name)) as (value & Hvalue & E).
  injection Hvalue as <-.
  destruct (binary_write_outcome 255 255 (health_offset name)
              (str_of_path file_path) (answered w rest edit_menu_shown))
    as (opened & text & fs' & Eout & _).
  rewrite Eout in E. rewrite Eout. cbn [snd].
  now rewrite (bind_ok _ _ _ _ _ E).
Qed.

Lemma edit_menu_other e w' :
  choice_of line <> "0" -> choice_of line <> "1" ->
  edit_menu str_of_path fuel character file_path (answered w rest edit_menu_shown)
  = (Raise e, w') ->
  edit_menu str_of_path (S fuel) character file_path w = (Raise e, w').
Proof.
  intros H0 H1 E. cbn [edit_menu]. rewrite (prompt_answered _ _ _ _ _ _ Hin).
  rewrite (choice_is_not _ _ H0), (choice_is_not _ _ H1).
  now apply bind_raise.
Qed.

End Steps.

End Script.

(** X9: an answer to the character menu that is none of "0", "1", "2" gets
    "Selection not found" and the same menu again: from there the run is the
    run of a fresh [main_menu], one call deeper, on the rest of the input,
    with the file system untouched. *)
Theorem main_menu_redisplays (str_of_path : Path -> string) fuel file_path w line rest :
  stdin w = line :: rest ->
  choice_of line <> "0" -> choice_of line <> "1" -> choice_of line <> "2" ->
  main_menu str_of_path (S fuel) file_path w
  = main_menu str_of_path fuel file_path
      (answered w rest
         (main_menu_shown
          ++ [EvPrint (Str.LF +:+ "Selection not found" +:+ Str.LF)])).
Proof.
  intros Hin H0 H1 H2.
  match goal with |- _ = main_menu _ _ _ ?w1 =>
    destruct (proj1 (menus_run_ends str_of_path file_path fuel) w1)
      as (e & w' & _ & E & _)
  end.
  rewrite E. now apply (main_menu_other str_of_path fuel file_path w line rest).
Qed.

Lemma main_menu_redisplays_witness :
  main_menu Path_arg 3 (PathOf "save.sav") (with_stdin ["9"; "0"] w0)
  = main_menu Path_arg 2 (PathOf "save.sav")
      (answered (with_stdin ["9"; "0"] w0) ["0"]
         (main_menu_shown
          ++ [EvPrint (Str.LF +:+ "Selection not found" +:+ Str.LF)])).
Proof.
  apply (main_menu_redisplays Path_arg 2 (PathOf "save.sav") (with_stdin ["9"; "0"] w0)
           "9" ["0"]).
  - reflexivity.
  - discriminate.
  - discriminate.
  - discriminate.
Defined.

(** X10: picking a character ("1" for Drake, "2" for Farley) hands the run
    to the attribute menu for that character, with no attribute selected
    yet: the run ends as that menu ends. *)
Theorem main_menu_selects (str_of_path : Path -> string) fuel file_path w line rest name :
  stdin w = line :: rest ->
  choice_of line = character_key name ->
  exists e w',
    edit_menu str_of_path fuel (game_character.new (Some name) None) file_path
      (answered w rest main_menu_shown) = (Raise e, w')
    /\ main_menu str_of_path (S fuel) file_path w = (Raise e, w').
Proof.
  intros Hin Hkey.
  destruct (proj2 (menus_run_ends str_of_path file_path fuel)
              (game_character.new (Some name) None)
              (answered w rest main_menu_shown) ltac:(now eexists))
    as (e & w' & _ & E & _).
  exists e, w'. split; [exact E|].
  now apply (main_menu_picks str_of_path fuel file_path w line rest Hin name).
Qed.

Lemma main_menu_selects_witness :
  exists e w',
    edit_menu Path_arg 2 (game_character.new (Some Farley) None) (PathOf "save.sav")
      (answered (with_stdin [" 2"; "0"; "0"] w0) ["0"; "0"] main_menu_shown)
    = (Raise e, w')
    /\ main_menu Path_arg 3 (PathOf "save.sav") (with_stdin [" 2"; "0"; "0"] w0)
       = (Raise e, w').
Proof.
  apply (main_menu_selects Path_arg 2 (PathOf "save.sav") (with_stdin [" 2"; "0"; "0"] w0)
           " 2" ["0"; "0"] Farley).
  - reflexivity.
  - reflexivity.
Defined.

(** X11: "0" in the attribute menu goes back: the screen is cleared and the
    run ends as a fresh character menu ends, one call deeper; the character
    chosen before plays no part in it. *)
Theorem edit_menu_back (str_of_path : Path -> string) fuel file_path w line rest character :
  stdin w = line :: rest ->
  choice_of line = "0" ->
  exists e w',
    main_menu str_of_path fuel file_path
      (answered w rest (edit_menu_shown ++ [EvSystem (clear_command w)]))
    = (Raise e, w')
    /\ edit_menu str_of_path (S fuel) character file_path w = (Raise e, w').
Proof.
  intros Hin H0.
  destruct (proj1 (menus_run_ends str_of_path file_path fuel)
              (answered w rest (edit_menu_shown ++ [EvSystem (clear_command w)])))
    as (e & w' & _ & E & _).
  exists e, w'. split; [exact E|].
  now apply (edit_menu_zero str_of_path fuel file_path w line rest Hin).
Qed.

Lemma edit_menu_back_witness :
  exists e w',
    main_menu Path_arg 2 (PathOf "save.sav")
      (answered (with_stdin ["0"; "0"] w0) ["0"]
         (edit_menu_shown ++ [EvSystem "clear"]))
    = (Raise e, w')
    /\ edit_menu Path_arg 3 (game_character.new (Some Drake) None)
         (PathOf "save.sav") (with_stdin ["0"; "0"] w0)
       = (Raise e, w').
Proof.
  apply (edit_menu_back Path_arg 2 (PathOf "save.sav") (with_stdin ["0"; "0"] w0)
           "0" ["0"] (game_character.new (Some Drake) None)).
  - reflexivity.
  - reflexivity.
Defined.

(** X12: "1" in the attribute menu, for a character that has a name, calls
    [binary_write] with value 255, ceiling 255 and the character's health
    offset (340 for Drake, 99999 for Farley) on the rendered path, then
    shows the attribute menu again with health selected, whether the write
    succeeded or not. *)
Theorem edit_menu_writes_health (str_of_path : Path -> string) fuel file_path w line rest character name :
  stdin w = line :: rest ->
  choice_of line = "1" ->
  game_character.name character = Some name ->
  edit_menu str_of_path (S fuel) character file_path w
  = edit_menu str_of_path fuel (game_character.new (Some name) (Some health))
      file_path
      (snd (binary_write 255 255 (health_offset name) (str_of_path file_path)
              (answered w rest edit_menu_shown))).
Proof.
  intros Hin H1 Hname.
  exact (edit_menu_one str_of_path fuel file_path w line rest Hin character name
           H1 Hname).
Qed.

Lemma edit_menu_writes_health_witness :
  edit_menu Path_arg 3 (game_character.new (Some Drake) None) (PathOf "save.sav")
    (with_stdin ["1"; "0"; "0"] w0)
  = edit_menu Path_arg 2 (game_character.new (Some Drake) (Some health))
      (PathOf "save.sav")
      (snd (binary_write 255 255 340 "save.sav"
              (answered (with_stdin ["1"; "0"; "0"] w0) ["0"; "0"] edit_menu_shown))).
Proof.
  apply (edit_menu_writes_health Path_arg 2 (PathOf "save.sav")
           (with_stdin ["1"; "0"; "0"] w0) "1" ["0"; "0"]
           (game_character.new (Some Drake) None) Drake).
  - reflexivity.
  - reflexivity.
  - reflexivity.
Defined.

(** X13: any other answer to the attribute menu shows it again: the run is
    the run of a fresh [edit_menu] for the same character, one call deeper,
    and nothing is looked up or written in between. *)
Theorem edit_menu_redisplays (str_of_path : Path -> string) fuel file_path w line rest character :
  stdin w = line :: rest ->
  choice_of line <> "0" -> choice_of line <> "1" ->
  is_Some (game_character.name character) ->
  edit_menu str_of_path (S fuel) character file_path w
  = edit_menu str_of_path fuel character file_path
      (answered w rest edit_menu_shown).
Proof.
  intros Hin H0 H1 Hname.
  destruct (proj2 (menus_run_ends str_of_path file_path fuel) character
              (answered w rest edit_menu_shown) Hname)
    as (e & w' & _ & E & _).
  rewrite E. now apply (edit_menu_other str_of_path fuel file_path w line rest).
Qed.

Lemma edit_menu_redisplays_witness :
  edit_menu Path_arg 3 (game_character.new (Some Drake) None) (PathOf "save.sav")
    (with_stdin ["health"; "0"; "0"] w0)
  = edit_menu Path_arg 2 (game_character.new (Some Drake) None) (PathOf "save.sav")
      (answered (with_stdin ["health"; "0"; "0"] w0) ["0"; "0"] edit_menu_shown).
Proof.
  apply (edit_menu_redisplays Path_arg 2 (PathOf "save.sav")
           (with_stdin ["health"; "0"; "0"] w0) "health" ["0"; "0"]
           (game_character.new (Some Drake) None)).
  - reflexivity.
  - discriminate.
  - discriminate.
  - now eexists.
Defined.

(** X14: a whole session.  The path is typed, a character picked, Health
    chosen, then Back and Exit.  When the cleaned path is a regular file
    longer than that character's health offset, the script ends with exit
    status 0 having changed exactly one thing: the byte at that offset of
    that file is 0xff. *)
Theorem session_sets_health (str_of_path : Path -> string) fuel w raw_path name pick one back leave rest content :
  stdin w = raw_path :: pick :: one :: back :: leave :: rest ->
  choice_of pick = character_key name ->
  choice_of one = "1" ->
  choice_of back = "0" ->
  choice_of leave = "0" ->
  fs w !! str_of_path (clean_file_path raw_path) = Some (RegularFile content) ->
  health_offset name < Z.of_nat (length content) ->
  let r := main str_of_path (5 + fuel) w in
  fst r = Raise (SystemExit 0)
  /\ exit_status (fst r) = 0
  /\ stdin (snd r) = rest
  /\ fs (snd r)
     = <[str_of_path (clean_file_path raw_path)
         := RegularFile (<[Z.to_nat (health_offset name) := xff]> content)]> (fs w).
Proof.
  intros Hin Hpick Hone Hback Hleave Hf Hlen r.
  set (p := str_of_path (clean_file_path raw_path)) in *.
  assert (exists w', main str_of_path (5 + fuel) w = (Raise (SystemExit 0), w')
                     /\ stdin w' = rest
                     /\ fs w' = <[p := RegularFile
                                         (<[Z.to_nat (health_offset name) := xff]>
                                            content)]> (fs w))
    as (w' & E & Hrest & Hfs).
  2: { subst r. rewrite E. now repeat split. }
  cbn [Nat.add main].
  rewrite (bind_ok _ _ _ _ _ (clear_screen_logged _)).
  rewrite (bind_ok _ _ _ _ _ (print_logged _ _)).
  erewrite bind_ok by (apply input_line; exact Hin).
  rewrite (bind_ok _ _ _ _ _ (clear_screen_logged _)).
  match goal with |- context [main_menu _ _ _ ?w1] => set (w1' := w1) end.
  set (w2 := answered w1' (one :: back :: leave :: rest) main_menu_shown).
  set (w3 := answered w2 (back :: leave :: rest) edit_menu_shown).
  destruct (try_writes 255 255 (health_offset name) p w3
              ltac:(destruct name; simpl; lia) ltac:(lia) content Hf Hlen ltac:(lia))
    as (b & Hb & Etry).
  apply binary_write_completes in Etry.
  assert (b = xff) as ->.
  { pose proof (Byte.of_to_N b) as Eb. rewrite Hb in Eb.
    change (Byte.of_N (Z.to_N 255)) with (Some xff) in Eb. congruence. }
  eexists. split; [|split].
  - apply (main_menu_picks str_of_path _ _ w1' pick _ eq_refl name _ _ Hpick).
    fold w2.
    rewrite (edit_menu_one str_of_path _ _ w2 one _ eq_refl
               (game_character.new (Some name) None) name Hone eq_refl).
    fold w3. fold p. rewrite Etry. cbn [snd].
    match goal with |- edit_menu _ _ _ _ ?w4 = _ => set (w4' := w4) end.
    apply (edit_menu_zero str_of_path _ _ w4' back (leave :: rest) eq_refl _ _ _ Hback).
    match goal with |- main_menu _ _ _ ?w5 = _ => set (w5' := w5) end.
    apply (main_menu_zero str_of_path _ _ w5' leave rest eq_refl Hleave).
  - reflexivity.
  - reflexivity.
Qed.

Lemma session_sets_health_witness :
  let w := World {[ "save.sav" := RegularFile (replicate 400 x00) ]} "posix"
                 ["& 'save.sav'"; "1"; "1"; "0"; "0"] [] in
  let r := main Path_arg 5 w in
  fst r = Raise (SystemExit 0)
  /\ exit_status (fst r) = 0
  /\ stdin (snd r) = []
  /\ fs (snd r)
     = <[Path_arg (clean_file_path "& 'save.sav'")
         := RegularFile (<[Z.to_nat (health_offset Drake) := xff]>
                           (replicate 400 x00))]> (fs w).
Proof.
  intros w.
  apply (session_sets_health Path_arg 0 w "& 'save.sav'" Drake "1" "1" "0" "0" []
           (replicate 400 x00)).
  - reflexivity.
  - reflexivity.
  - reflexivity.
  - reflexivity.
  - reflexivity.
  - reflexivity.
  - simpl. lia.
Defined.

(** ** More on [clean_file_path] *)

Lemma starts_in_lstrip p s : starts_in p (Str.lstrip p s) = false.
Proof.
  induction s as [|c s IH]; [reflexivity|]. simpl.
  destruct (p c) eqn:Hc; [exact IH|]. simpl. exact Hc.
Qed.

Lemma starts_in_rstrip p s :
  starts_in p s = false -> starts_in p (Str.rstrip p s) = false.
Proof.
  destruct s as [|c s]; [reflexivity|]. simpl. intros Hc.
  destruct (Str.rstrip p s); [rewrite Hc|]; simpl; exact Hc.
Qed.

Lemma ends_in_rstrip p s : ends_in p (Str.rstrip p s) = false.
Proof.
  induction s as [|c s IH]; [reflexivity|]. simpl.
  destruct (Str.rstrip p s) as [|d r].
  - destruct (p c) eqn:Hc; [reflexivity|]. simpl. exact Hc.
  - exact IH.
Qed.

Lemma lstrip_all p s : Str.all p s = true -> Str.lstrip p s = EmptyString.
Proof.
  induction s as [|c s IH]; [reflexivity|]. simpl.
  intros [Hc Hs]%andb_true_iff. rewrite Hc. now apply IH.
Qed.

Lemma rstrip_all p s : Str.all p s = true -> Str.rstrip p s = EmptyString.
Proof.
  induction s as [|c s IH]; [reflexivity|]. simpl.
  intros [Hc Hs]%andb_true_iff. now rewrite (IH Hs), Hc.
Qed.

Lemma lstrip_all_app p pre s :
  Str.all p pre = true -> Str.lstrip p (pre +:+ s) = Str.lstrip p s.
Proof.
  induction pre as [|c pre IH]; [reflexivity|].
  intros [Hc Hpre]%andb_true_iff. rewrite append_cons. simpl.
  rewrite Hc. now apply IH.
Qed.

Lemma lstrip_unchanged p s : starts_in p s = false -> Str.lstrip p s = s.
Proof. destruct s as [|c s]; [reflexivity|]. simpl. now intros ->. Qed.

Lemma rstrip_app_all p s post :
  Str.all p post = true -> Str.rstrip p (s +:+ post) = Str.rstrip p s.
Proof.
  intros Hpost. induction s as [|c s IH].
  - rewrite append_empty_l. now apply rstrip_all.
  - rewrite append_cons. simpl. now rewrite IH.
Qed.

Lemma rstrip_unchanged p s : ends_in p s = false -> Str.rstrip p s = s.
Proof.
  induction s as [|c s IH]; [reflexivity|].
  destruct s as [|d t].
  - simpl. now intros ->.
  - intros H. change (ends_in p (String d t) = false) in H.
    change (Str.rstrip p (String c (String d t)))
      with (match Str.rstrip p (String d t) with
            | EmptyString => if p c then EmptyString else String c EmptyString
            | r => String c r
            end).
    now rewrite (IH H).
Qed.

Lemma starts_in_app p s t :
  s <> EmptyString -> starts_in p (s +:+ t) = starts_in p s.
Proof. now destruct s. Qed.

Lemma ends_in_app p s t :
  t <> EmptyString -> ends_in p (s +:+ t) = ends_in p t.
Proof.
  intros Ht. induction s as [|c s IH]; [reflexivity|].
  rewrite append_cons.
  destruct (s +:+ t) as [|d u] eqn:E; [|exact IH].
  destruct s; [now rewrite append_empty_l in E | discriminate E].
Qed.

Lemma append_nonempty_l s t : s <> EmptyString -> s +:+ t <> EmptyString.
Proof. now destruct s. Qed.

Lemma append_nonempty_r s t : t <> EmptyString -> s +:+ t <> EmptyString.
Proof. destruct s; [now rewrite append_empty_l | discriminate]. Qed.

(** A string of characters of one kind in front of [t], or behind it, does
    not make it start, or end, with a character of a kind disjoint from it. *)
Lemma starts_in_all_app (p q : ascii -> bool) pre t :
  Str.all q pre = true -> (forall c, q c = true -> p c = false) ->
  starts_in p t = false -> starts_in p (pre +:+ t) = false.
Proof.
  intros Hpre Hpq Ht. destruct pre as [|c pre]; [exact Ht|].
  apply andb_true_iff in Hpre as [Hc _]. simpl. now apply Hpq.
Qed.

Lemma ends_in_app_all (p q : ascii -> bool) t post :
  Str.all q post = true -> (forall c, q c = true -> p c = false) ->
  ends_in p t = false -> ends_in p (t +:+ post) = false.
Proof.
  intros Hpost Hpq Ht. destruct post as [|c post].
  { now rewrite append_empty_r. }
  rewrite ends_in_app by discriminate.
  revert c Hpost. induction post as [|d post IH]; intros c Hpost.
  - apply andb_true_iff in Hpost as [Hc _]. simpl. now apply Hpq.
  - apply andb_true_iff in Hpost as [_ Hpost]. now apply IH.
Qed.

Lemma starts_in_weaker (p q : ascii -> bool) s :
  (forall c, p c = true -> q c = true) ->
  starts_in q s = false -> starts_in p s = false.
Proof.
  intros Hpq. destruct s as [|c s]; [reflexivity|]. simpl. intros Hq.
  destruct (p c) eqn:Hp; [|reflexivity]. now rewrite (Hpq c Hp) in Hq.
Qed.

Lemma ends_in_weaker (p q : ascii -> bool) s :
  (forall c, p c = true -> q c = true) ->
  ends_in q s = false -> ends_in p s = false.
Proof.
  intros Hpq. induction s as [|c s IH]; [reflexivity|].
  destruct s as [|d t].
  - simpl. intros Hq. destruct (p c) eqn:Hp; [|reflexivity].
    now rewrite (Hpq c Hp) in Hq.
  - exact IH.
Qed.

(** Stripping undoes wrapping: characters of the stripped kind around a
    string that neither starts nor ends with one come off, all of them and
    nothing else. *)
Lemma strip_wrapped chars pre s post :
  let p := match chars with
           | None => Str.isspace
           | Some cs => fun c => Str.mem c cs
           end in
  Str.all p pre = true -> Str.all p post = true ->
  s <> EmptyString -> starts_in p s = false -> ends_in p s = false ->
  Str.strip chars (pre +:+ s +:+ post) = s.
Proof.
  intros p Hpre Hpost Hne Hstart Hend. unfold Str.strip. fold p.
  rewrite lstrip_all_app by exact Hpre.
  rewrite lstrip_unchanged by (now rewrite starts_in_app).
  rewrite rstrip_app_all by exact Hpost.
  now apply rstrip_unchanged.
Qed.

Lemma mem_one c d : Str.mem c (String d EmptyString) = true -> c = d.
Proof.
  simpl. destruct (Ascii.eqb c d) eqn:E; [|discriminate].
  intros _. now apply Ascii.eqb_eq.
Qed.

Lemma startswith_amp_false s :
  starts_in (fun c => Ascii.eqb c "&") s = false -> Str.startswith s "& " = false.
Proof.
  unfold Str.startswith. destruct s as [|c s]; [reflexivity|].
  cbn [starts_in String.prefix]. intros Hc.
  destruct (Ascii.ascii_dec "&" c) as [<-|]; [discriminate Hc | reflexivity].
Qed.

Lemma startswith_amp_true t :
  Str.startswith ("& " +:+ t) "& " = true /\ Str.slice_from 2 ("& " +:+ t) = t.
Proof.
  split; [|reflexivity]. unfold Str.startswith.
  change ("& " +:+ t) with (String "&" (String " " t)). cbn [String.prefix].
  destruct (Ascii.ascii_dec "&" "&"); [|congruence].
  destruct (Ascii.ascii_dec " " " "); [|congruence].
  now destruct t.
Qed.

(** X15: the converse of C10.  Take a string that is not empty, does not
    start with white space, a quote or "&", and does not end with white
    space or a quote.  Put single quotes around it (any number on each
    side), double quotes around that, "& " or nothing in front, and white
    space around everything: [clean_file_path] gives back the string. *)
Theorem clean_file_path_unwraps ws1 amp dq1 sq1 s sq2 dq2 ws2 :
  Str.all Str.isspace ws1 = true ->
  Str.all Str.isspace ws2 = true ->
  amp = EmptyString \/ amp = "& " ->
  Str.all (fun c => Str.mem c Str.dquote) dq1 = true ->
  Str.all (fun c => Str.mem c Str.dquote) dq2 = true ->
  Str.all (fun c => Str.mem c Str.squote) sq1 = true ->
  Str.all (fun c => Str.mem c Str.squote) sq2 = true ->
  s <> EmptyString ->
  starts_in edge_char s = false ->
  starts_in (fun c => Ascii.eqb c "&") s = false ->
  ends_in edge_char s = false ->
  clean_file_path ((ws1 +:+ amp +:+ dq1 +:+ sq1) +:+ s +:+ (sq2 +:+ dq2 +:+ ws2))
  = PathOf s.
Proof.
  intros Hws1 Hws2 Hamp Hdq1 Hdq2 Hsq1 Hsq2 Hne Hstart Hamp_s Hend.
  set (inner := sq1 +:+ s +:+ sq2).
  set (mid := dq1 +:+ inner +:+ dq2).
  set (core := amp +:+ mid).
  replace ((ws1 +:+ amp +:+ dq1 +:+ sq1) +:+ s +:+ (sq2 +:+ dq2 +:+ ws2))
    with (ws1 +:+ core +:+ ws2)
    by (subst core mid inner; now rewrite !append_assoc).
  (* what the quotes are not *)
  assert (Hdq_space : forall c, Str.mem c Str.dquote = true -> Str.isspace c = false)
    by (intros c ->%mem_one; reflexivity).
  assert (Hsq_space : forall c, Str.mem c Str.squote = true -> Str.isspace c = false)
    by (intros c ->%mem_one; reflexivity).
  assert (Hsq_dq : forall c, Str.mem c Str.squote = true -> Str.mem c Str.dquote = false)
    by (intros c ->%mem_one; reflexivity).
  assert (Hdq_amp : forall c, Str.mem c Str.dquote = true -> Ascii.eqb c "&" = false)
    by (intros c ->%mem_one; reflexivity).
  assert (Hsq_amp : forall c, Str.mem c Str.squote = true -> Ascii.eqb c "&" = false)
    by (intros c ->%mem_one; reflexivity).
  (* what the ends of [s] are not *)
  assert (Hs_space : starts_in Str.isspace s = false /\ ends_in Str.isspace s = false).
  { split; [apply (starts_in_weaker _ edge_char); [|exact Hstart]
           | apply (ends_in_weaker _ edge_char); [|exact Hend]];
      intros c Hc; unfold edge_char; now rewrite Hc. }
  assert (Hs_dq : starts_in (fun c => Str.mem c Str.dquote) s = false
                  /\ ends_in (fun c => Str.mem c Str.dquote) s = false).
  { split; [apply (starts_in_weaker _ edge_char); [|exact Hstart]
           | apply (ends_in_weaker _ edge_char); [|exact Hend]];
      intros c Hc; unfold edge_char; rewrite Hc; now rewrite ?orb_true_r. }
  assert (Hs_sq : starts_in (fun c => Str.mem c Str.squote) s = false
                  /\ ends_in (fun c => Str.mem c Str.squote) s = false).
  { split; [apply (starts_in_weaker _ edge_char); [|exact Hstart]
           | apply (ends_in_weaker _ edge_char); [|exact Hend]];
      intros c Hc; unfold edge_char; rewrite Hc; now rewrite ?orb_true_r. }
  destruct Hs_space as [Hs_sp1 Hs_sp2], Hs_dq as [Hs_dq1 Hs_dq2],
    Hs_sq as [Hs_sq1 Hs_sq2].
  (* the three layers *)
  assert (Hinner_ne : inner <> EmptyString)
    by (subst inner; apply append_nonempty_r; now apply append_nonempty_l).
  assert (Hmid_ne : mid <> EmptyString)
    by (subst mid; apply append_nonempty_r; now apply append_nonempty_l).
  assert (Hstart_body : forall p, starts_in p s = false ->
            (forall c, Str.mem c Str.squote = true -> p c = false) ->
            starts_in p inner = false).
  { intros p Hp Hq. subst inner.
    apply (starts_in_all_app p _ sq1 _ Hsq1 Hq). now rewrite starts_in_app. }
  assert (Hend_body : forall p, ends_in p s = false ->
            (forall c, Str.mem c Str.squote = true -> p c = false) ->
            ends_in p inner = false).
  { intros p Hp Hq. subst inner. rewrite ends_in_app by now apply append_nonempty_l.
    now apply (ends_in_app_all p _ s sq2 Hsq2 Hq). }
  assert (Hstart_mid : forall p, starts_in p s = false ->
            (forall c, Str.mem c Str.squote = true -> p c = false) ->
            (forall c, Str.mem c Str.dquote = true -> p c = false) ->
            starts_in p mid = false).
  { intros p Hp Hq Hd. subst mid.
    apply (starts_in_all_app p _ dq1 _ Hdq1 Hd).
    rewrite starts_in_app by exact Hinner_ne. now apply Hstart_body. }
  assert (Hend_mid : forall p, ends_in p s = false ->
            (forall c, Str.mem c Str.squote = true -> p c = false) ->
            (forall c, Str.mem c Str.dquote = true -> p c = false) ->
            ends_in p mid = false).
  { intros p Hp Hq Hd. subst mid.
    rewrite ends_in_app by now apply append_nonempty_l.
    apply (ends_in_app_all p _ inner dq2 Hdq2 Hd). now apply Hend_body. }
  unfold clean_file_path.
  assert (Hstrip : Str.strip None (ws1 +:+ core +:+ ws2) = core).
  { apply (strip_wrapped None); try assumption.
    - subst core. now apply append_nonempty_r.
    - subst core. destruct Hamp as [-> | ->].
      + rewrite append_empty_l. now apply Hstart_mid.
      + reflexivity.
    - subst core. rewrite ends_in_app by exact Hmid_ne. now apply Hend_mid. }
  rewrite Hstrip.
  assert (Hprefix : (if Str.startswith core "& "
                     then Str.slice_from 2 core else core) = mid).
  { subst core. destruct Hamp as [-> | ->].
    - rewrite append_empty_l.
      now rewrite startswith_amp_false by (now apply Hstart_mid).
    - destruct (startswith_amp_true mid) as [-> ->]. reflexivity. }
  rewrite Hprefix.
  assert (Hdq : Str.strip (Some Str.dquote) mid = inner).
  { subst mid. apply (strip_wrapped (Some Str.dquote)); try assumption.
    - now apply Hstart_body.
    - now apply Hend_body. }
  rewrite Hdq. f_equal.
  subst inner. now apply (strip_wrapped (Some Str.squote)).
Qed.

Lemma clean_file_path_unwraps_witness :
  clean_file_path (("  " +:+ "& " +:+ EmptyString +:+ "'")
                   +:+ "C:\GOG Games\Stonekeep\SAVE01.SAV"
                   +:+ ("'" +:+ EmptyString +:+ " "))
  = PathOf "C:\GOG Games\Stonekeep\SAVE01.SAV".
Proof.
  apply (clean_file_path_unwraps "  " "& " EmptyString "'"
           "C:\GOG Games\Stonekeep\SAVE01.SAV" "'" EmptyString " ").
  - reflexivity.
  - reflexivity.
  - now right.
  - reflexivity.
  - reflexivity.
  - reflexivity.
  - reflexivity.
  - discriminate.
  - reflexivity.
  - reflexivity.
  - reflexivity.
Defined.

(** X16: whatever the input, the string that [clean_file_path] hands to
    [Path] neither starts nor ends with a single quote. *)
Theorem clean_file_path_no_outer_single_quote raw_path :
  starts_in (fun c => Str.mem c Str.squote) (Path_arg (clean_file_path raw_path)) = false
  /\ ends_in (fun c => Str.mem c Str.squote) (Path_arg (clean_file_path raw_path)) = false.
Proof.
  unfold clean_file_path. cbn [Path_arg]. unfold Str.strip at 1. split.
  - apply starts_in_rstrip, starts_in_lstrip.
  - apply ends_in_rstrip.
Qed.
